(** * ChaCha stream cipher and ChaCha20-Poly1305 AEAD

    A shallow embedding of the Go packages [chacha] (file
    [chacha/chacha_amd64.go] and the AVX2 dispatcher file) and [chacha20]
    (the AEAD construction).

    Conventions.
    - A Go [byte] is a [Z] in [0, 256); a [[]byte] is a [list Z].  Go's
      conversions [byte(x)] and the 32-bit additions are written with their
      wrap-around ([mod 256], [mod 2^32]).
    - A Go [int] that is a length is a [nat] ([length]); the [int]s that a
      caller chooses freely ([rounds], [tagsize]) are [Z].
    - A Go procedure that writes into a caller's buffer returns the buffer
      after the call.
    - A Go [panic] is a result of its own, carrying the message. *)

From Stdlib Require Import String.
From Stdlib Require Import ZArith List Lia Bool Arith.
Import ListNotations.
Local Open Scope Z_scope.

(** ** Byte strings *)

Module Bytes.

Definition is_byte (b : Z) : bool := (0 <=? b) && (b <? 256).

Definition all_bytes (l : list Z) : bool := forallb is_byte l.

Definition byte_range (b : Z) : Prop := 0 <= b < 256.

(** [make([]byte, n)]: [n] zero bytes. *)
Definition make (n : nat) : list Z := repeat 0 n.

(** Go's built-in [copy(dst, src)]: the first [min (len dst) (len src)]
    bytes of [dst] are replaced by those of [src]. *)
Definition copy (dst src : list Z) : list Z :=
  let n := Nat.min (length dst) (length src) in
  firstn n src ++ skipn n dst.

(** [dst[i] = v] for [i < len dst] (Go panics out of range; every use
    below is in range under the stated preconditions). *)
Definition set_at (dst : list Z) (i : nat) (v : Z) : list Z :=
  firstn i dst ++ v :: skipn (S i) dst.

(** Little-endian encoding of [x] on [n] bytes and its decoding. *)
Fixpoint le_bytes (n : nat) (x : Z) : list Z :=
  match n with
  | O => []
  | S k => x mod 256 :: le_bytes k (x / 256)
  end.

Fixpoint le_value (l : list Z) : Z :=
  match l with
  | [] => 0
  | b :: r => b + 256 * le_value r
  end.

(** Byte-wise exclusive or of two byte strings, up to the shorter one. *)
Fixpoint xor_bytes (a b : list Z) : list Z :=
  match a, b with
  | x :: a', y :: b' => Z.lxor x y :: xor_bytes a' b'
  | _, _ => []
  end.

(** The [uint64] view of a byte buffer that [xor] obtains by casting the
    slice header: word [i] is bytes [8i .. 8i+7], little-endian on amd64. *)
Definition load64 (buf : list Z) (i : nat) : Z :=
  le_value (firstn 8 (skipn (8 * i) buf)).

Definition store64 (buf : list Z) (i : nat) (v : Z) : list Z :=
  firstn (8 * i) buf ++ le_bytes 8 v ++ skipn (8 * i + 8) buf.

End Bytes.

(** ** Package chacha *)

Module ChaCha.
Import Bytes.

(** *** The routines written in assembly

    [setState], [coreSSE2], [coreSSSE3], [xorBlocksSSE2], [xorBlocksSSSE3]
    and [xorBlocksAVX2] are only declared in the Go files; their bodies are
    assembly.  They are modelled from the specification (sections 3, 4.1 and
    4.2) and from the doc comments on their Go declarations. *)

Definition add32 (a b : Z) : Z := (a + b) mod 2 ^ 32.

Definition rotl32 (x : Z) (n : Z) : Z :=
  Z.lor (Z.shiftl x n mod 2 ^ 32) (Z.shiftr x (32 - n)).

(** Modelled from the spec: the quarter-round of section 4.2,
    [a+=b; d^=a; d<<<=16; c+=d; b^=c; b<<<=12; a+=b; d^=a; d<<<=8; c+=d;
    b^=c; b<<<=7], on the words at positions [i j k l] of the state. *)
Definition quarter_round (i j k l : nat) (s : list Z) : list Z :=
  let a := nth i s 0 in
  let b := nth j s 0 in
  let c := nth k s 0 in
  let d := nth l s 0 in
  let a := add32 a b in
  let d := rotl32 (Z.lxor d a) 16 in
  let c := add32 c d in
  let b := rotl32 (Z.lxor b c) 12 in
  let a := add32 a b in
  let d := rotl32 (Z.lxor d a) 8 in
  let c := add32 c d in
  let b := rotl32 (Z.lxor b c) 7 in
  set_at (set_at (set_at (set_at s i a) j b) k c) l d.

(** Modelled from the spec: one double-round is a column round followed by
    a diagonal round (section 4.2). *)
Definition double_round (s : list Z) : list Z :=
  let s := quarter_round 0 4 8 12 s in
  let s := quarter_round 1 5 9 13 s in
  let s := quarter_round 2 6 10 14 s in
  let s := quarter_round 3 7 11 15 s in
  let s := quarter_round 0 5 10 15 s in
  let s := quarter_round 1 6 11 12 s in
  let s := quarter_round 2 7 8 13 s in
  quarter_round 3 4 9 14 s.

Fixpoint iterate {A : Type} (n : nat) (f : A -> A) (x : A) : A :=
  match n with
  | O => x
  | S k => iterate k f (f x)
  end.

(** The sixteen little-endian 32-bit words of a 64-byte state, and back. *)
Fixpoint words_of (n : nat) (bytes : list Z) : list Z :=
  match n with
  | O => []
  | S k => le_value (firstn 4 bytes) :: words_of k (skipn 4 bytes)
  end.

Definition bytes_of (words : list Z) : list Z :=
  flat_map (le_bytes 4) words.

Fixpoint add_words (a b : list Z) : list Z :=
  match a, b with
  | x :: a', y :: b' => add32 x y :: add_words a' b'
  | _, _ => []
  end.

(** The ASCII constant "expand 32-byte k". *)
Definition sigma : list Z :=
  [101; 120; 112; 97; 110; 100; 32; 51; 50; 45; 98; 121; 116; 101; 32; 107].

(** Modelled from the spec: [setState] is assembly.  Section 3 fixes the
    layout: words 0-3 the constant, words 4-11 the key, word 12 the block
    counter, words 13-15 the nonce, all little-endian. *)
Definition setState (key nonce : list Z) (counter : Z) : list Z :=
  sigma ++ firstn 32 (key ++ make 32) ++ le_bytes 4 counter
        ++ firstn 12 (nonce ++ make 12).

(** Modelled from the spec: the Round Engine of section 4.2, shared by all
    variants, which "must be bit-identical in output".  [rounds / 2]
    double-rounds, feed-forward of the input words, serialisation; the
    counter (word 12, bytes 48-51) of the state is advanced by one, modulo
    [2^32] (section 3). *)
Definition block_of (state : list Z) (rounds : Z) : list Z :=
  let w := words_of 16 state in
  bytes_of (add_words (iterate (Z.to_nat (rounds / 2)) double_round w) w).

Definition next_state (state : list Z) : list Z :=
  firstn 48 state
    ++ le_bytes 4 (add32 (le_value (firstn 4 (skipn 48 state))) 1)
    ++ skipn 52 state.

Definition core_spec (state : list Z) (rounds : Z) : list Z * list Z :=
  (block_of state rounds, next_state state).

(** Modelled from the spec: [coreSSE2] is assembly; it "generates 64 byte
    keystream from the given state performing 'rounds' rounds". *)
Definition coreSSE2 (state : list Z) (rounds : Z) : list Z * list Z :=
  core_spec state rounds.

(** Modelled from the spec: [coreSSSE3] is assembly, bit-identical to the
    baseline. *)
Definition coreSSSE3 (state : list Z) (rounds : Z) : list Z * list Z :=
  core_spec state rounds.

(** Modelled from the spec: the block engines "crypt full block
    ( len(src) - (len(src) mod 64) bytes ) from src to dst using the state"
    and advance the counter by one per block.  [blocks_spec nb src state]
    is the output for the first [nb] blocks and the state afterwards. *)
Fixpoint blocks_spec (nb : nat) (src state : list Z) (rounds : Z)
  : list Z * list Z :=
  match nb with
  | O => ([], state)
  | S k =>
      let '(ks, state1) := core_spec state rounds in
      let '(out, state2) := blocks_spec k (skipn 64 src) state1 rounds in
      (xor_bytes (firstn 64 src) ks ++ out, state2)
  end.

Definition xorBlocks_spec (dst src state : list Z) (rounds : Z)
  : list Z * list Z :=
  let '(out, state') := blocks_spec (length src / 64)%nat src state rounds in
  (out ++ skipn (length out) dst, state').

(** Modelled from the spec: [xorBlocksSSE2] is assembly (the baseline). *)
Definition xorBlocksSSE2 (dst src state : list Z) (rounds : Z) :=
  xorBlocks_spec dst src state rounds.

(** Modelled from the spec: [xorBlocksSSSE3] is assembly. *)
Definition xorBlocksSSSE3 (dst src state : list Z) (rounds : Z) :=
  xorBlocks_spec dst src state rounds.

(** Modelled from the spec: [xorBlocksAVX2] is assembly. *)
Definition xorBlocksAVX2 (dst src state : list Z) (rounds : Z) :=
  xorBlocks_spec dst src state rounds.

(** *** The Go code of the package *)

Inductive variant : Type := AVX2 | SSSE3 | SSE2.

Definition run_variant (v : variant) (dst src state : list Z) (rounds : Z)
  : list Z * list Z :=
  match v with
  | AVX2 => xorBlocksAVX2 dst src state rounds
  | SSSE3 => xorBlocksSSSE3 dst src state rounds
  | SSE2 => xorBlocksSSE2 dst src state rounds
  end.

(** [n & (^(m - 1))] on a length. *)
Definition mask_down (n : nat) (m : Z) : nat :=
  Z.to_nat (Z.land (Z.of_nat n) (Z.lnot (m - 1))).

(** [func xor(dst, src, with []byte) int].  The first loop runs over the
    [uint64] views of the three slices, the second over the remaining
    bytes.  "The destination is assumed to have enough space": the lemmas
    below take [min (len src) (len with) <= len dst]. *)
Definition xor (dst src with_ : list Z) : list Z * nat :=
  let n := length src in
  let n := if (length with_ <? n)%nat then length with_ else n in
  let w := (n / 8)%nat in
  let dst :=
    if (0 <? w)%nat
    then fold_left
           (fun d i => store64 d i (Z.lxor (load64 with_ i) (load64 src i)))
           (seq 0 w) dst
    else dst in
  let i0 := mask_down n 8 in
  let dst :=
    fold_left
      (fun d i => set_at d i (Z.lxor (nth i src 0) (nth i with_ 0)))
      (seq i0 (n - i0)) dst in
  (dst, n).

(** A Go call that returns a value or panics. *)
Inductive result (A : Type) : Type :=
| Ok (a : A)
| Panic (msg : string).
Arguments Ok {A} a.
Arguments Panic {A} msg.

(** The buffer that [xor] has reached once the first [m] bytes are
    written (the invariant of its two loops). *)
Definition xor_upto (dst src with_ : list Z) (m : nat) : list Z :=
  firstn m (xor_bytes src with_) ++ skipn m dst.

Section Dispatch.

(** The two hardware probes, [cpuid()] (the cx register) and
    [supportAVX2()], are assembly; their results are parameters. *)
Variable cpuid : Z.
Variable supportAVX2 : Z.

(** [func supportSSSE3() bool]: SSE3 && SSSE3. *)
Definition supportSSSE3 : bool :=
  negb (Z.land cpuid 1 =? 0) && negb (Z.land cpuid 512 =? 0).

(** [var useSSSE3 = supportSSSE3()] *)
Definition useSSSE3 : bool := supportSSSE3.

(** [var useAVX2 = supportAVX2() == 1 && false]: "go1.7 is still beta (and
    this AVX2 implementation is experimenal) disabled". *)
Definition useAVX2 : bool := (supportAVX2 =? 1) && false.

(** [func xorBlocks(dst, src []byte, state *[64]byte, rounds int)]:
    returns [dst] and [state] after the call. *)
Definition xorBlocks (dst src state : list Z) (rounds : Z)
  : list Z * list Z :=
  if useAVX2 && (128 <=? length src)%nat
  then xorBlocksAVX2 dst src state rounds
  else if useSSSE3
  then xorBlocksSSSE3 dst src state rounds
  else xorBlocksSSE2 dst src state rounds.

(** The engine that [xorBlocks] calls for [src]: the same tests, with the
    name of the engine for result. *)
Definition xorBlocks_variant (src : list Z) : variant :=
  if useAVX2 && (128 <=? length src)%nat then AVX2
  else if useSSSE3 then SSSE3
  else SSE2.

(** [func Core(dst *[64]byte, state *[64]byte, rounds int)]: returns the
    block written to [dst] and [state] after the call. *)
Definition Core (state : list Z) (rounds : Z) : list Z * list Z :=
  if useSSSE3 then coreSSSE3 state rounds else coreSSE2 state rounds.

(** [func XORKeyStream(dst, src []byte, nonce *[12]byte, key *[32]byte,
    counter uint32, rounds int)]: returns [dst] after the call and the
    panic message, if the call panicked. *)
Definition XORKeyStream (dst src nonce key : list Z) (counter rounds : Z)
  : list Z * option string :=
  let length := length src in
  if (List.length dst <? length)%nat
  then (dst, Some "chacha20/chacha: dst buffer is to small"%string)
  else if (rounds <=? 0) || negb (Z.rem rounds 2 =? 0)
  then (dst, Some "chacha20/chacha: rounds must be a multiple of 2"%string)
  else
    let state := setState key nonce counter in
    let '(dst, state) :=
      if (64 <=? length)%nat then xorBlocks dst src state rounds
      else (dst, state) in
    let n := mask_down length 64 in
    if (0 <? length - n)%nat
    then
      let '(block, state) := Core state rounds in
      (firstn n dst ++ fst (xor (skipn n dst) (skipn n src) block), None)
    else (dst, None).

(** The type [Cipher] is declared in a file of the package that is not
    among the sources: these are the two fields that [NewCipher] sets. *)
Record Cipher : Type := { rounds_of : Z; state_of : list Z }.

(** [func NewCipher(nonce *[12]byte, key *[32]byte, rounds int) *Cipher] *)
Definition NewCipher (nonce key : list Z) (rounds : Z) : result Cipher :=
  if (rounds <=? 0) || negb (Z.rem rounds 2 =? 0)
  then Panic "chacha20/chacha: rounds must be a multiply of 2"%string
  else Ok {| rounds_of := rounds; state_of := setState key nonce 0 |}.

End Dispatch.

End ChaCha.

(** ** Package chacha20: the AEAD construction *)

Module AEAD.
Import Bytes ChaCha.

(** [const TagSize = poly1305.TagSize] *)
Definition TagSize : Z := 16.

(** [NonceSize], a constant of the package declared next to the stream
    cipher: the 12 bytes of the nonce (specification, section 3). *)
Definition NonceSize : nat := 12.

Inductive error : Type := errAuthFailed | errInvalidNonceSize.

(** [err.Error()] *)
Definition Error (e : error) : string :=
  match e with
  | errAuthFailed => "authentication failed"
  | errInvalidNonceSize => "nonce size is invalid"
  end.

(** [type aead struct { key [32]byte; tagsize int }] *)
Record aead : Type := { key : list Z; tagsize : Z }.

(** [func NewChaCha20Poly1305(key *[32]byte) cipher.AEAD] *)
Definition NewChaCha20Poly1305 (k : list Z) : aead :=
  {| key := k; tagsize := TagSize |}.

(** [func NewChaCha20Poly1305WithTagSize(key *[32]byte, tagsize int)
    (cipher.AEAD, error)] *)
Definition NewChaCha20Poly1305WithTagSize (k : list Z) (ts : Z)
  : option aead * option string :=
  if (ts <? 1) || (TagSize <? ts)
  then (None, Some "tag size must be between 1 and 16"%string)
  else (Some {| key := k; tagsize := ts |}, None).

(** A Go slice seen from [sliceForAppend]: its elements, and the bytes of
    its backing array between [len] and [cap]. *)
Record slice : Type := { elems : list Z; spare : list Z }.

Definition len (s : slice) : nat := length (elems s).
Definition cap (s : slice) : nat := (length (elems s) + length (spare s))%nat.

(** The nil slice. *)
Definition nil_slice : slice := {| elems := []; spare := [] |}.

(** [func sliceForAppend(in []byte, n int) (head, tail []byte)].  [tail]
    aliases [head[len(in):]]: a caller that writes [tail] rebuilds [head]
    as [firstn (len in) head ++ tail]. *)
Definition sliceForAppend (in_ : slice) (n : nat) : list Z * list Z :=
  let total := (len in_ + n)%nat in
  let head :=
    if (total <=? cap in_)%nat
    then firstn total (elems in_ ++ spare in_)
    else copy (make total) (elems in_) in
  (head, skipn (len in_) head).

(** [subtle.ConstantTimeCompare(x, y []byte) int] of the Go library. *)
Definition ConstantTimeCompare (x y : list Z) : Z :=
  if negb (length x =? length y)%nat then 0
  else
    let v := fold_left (fun v p => Z.lor v (Z.lxor (fst p) (snd p)))
                       (combine x y) 0 in
    if v =? 0 then 1 else 0.

(** A 16-byte array, the [*[TagSize]byte] that [Sum] fills. *)
Definition tag16 : Type := { t : list Z | length t = 16%nat }.

Section Package.

Variable cpuid : Z.
Variable supportAVX2 : Z.

(** The keyed MAC of the package [poly1305], consumed as a black box:
    key and message to 16-byte tag. *)
Variable poly1305 : list Z -> list Z -> tag16.

(** Modelled from the spec: the streaming interface of the collaborator
    (section 6): [New(key)], [Write(bytes)] "repeatable, order-sensitive,
    streaming absorb", [Sum(&out)]. *)
Record Hash : Type := { hkey : list Z; absorbed : list Z }.

Definition New (k : list Z) : Hash := {| hkey := k; absorbed := [] |}.

Definition Write (h : Hash) (p : list Z) : Hash :=
  {| hkey := hkey h; absorbed := absorbed h ++ p |}.

Definition Sum (h : Hash) : list Z :=
  proj1_sig (poly1305 (hkey h) (absorbed h)).

(** [byte(x >> s)] of a [uint64]. *)
Definition byte_shr (x : Z) (s : Z) : Z := Z.shiftr x s mod 256.

(** [func authenticate(out *[TagSize]byte, ciphertext, additionalData
    []byte, key *[32]byte)]: returns the tag written to [out]. *)
Definition authenticate (ciphertext additionalData k : list Z) : list Z :=
  let ctLen := Z.of_nat (length ciphertext) mod 2 ^ 64 in
  let adLen := Z.of_nat (length additionalData) mod 2 ^ 64 in
  let padAD := adLen mod TagSize in
  let padCT := ctLen mod TagSize in
  let buf :=
    [ byte_shr adLen 0; byte_shr adLen 8; byte_shr adLen 16;
      byte_shr adLen 24; byte_shr adLen 32; byte_shr adLen 40;
      byte_shr adLen 48; byte_shr adLen 56;
      byte_shr ctLen 0; byte_shr ctLen 8; byte_shr ctLen 16;
      byte_shr ctLen 24; byte_shr ctLen 32; byte_shr ctLen 40;
      byte_shr ctLen 48; byte_shr ctLen 56 ] in
  let poly := New k in
  let poly := Write poly additionalData in
  let poly :=
    if 0 <? padAD then Write poly (make (Z.to_nat (16 - padAD))) else poly in
  let poly := Write poly ciphertext in
  let poly :=
    if 0 <? padCT then Write poly (make (Z.to_nat (16 - padCT))) else poly in
  let poly := Write poly buf in
  Sum poly.

(** [func (c *aead) Seal(dst, nonce, plaintext, additionalData []byte)
    []byte].  [ciphertext] is the tail of [ret]: the two calls that write
    it are followed here by the rebuilding of [ret].  [plaintext] is a
    value of its own: as [cipher.AEAD] asks, it overlaps the spare capacity
    of [dst] exactly or not at all, and [xor] reads index [i] before it
    writes index [i]. *)
Definition Seal (c : aead) (dst : slice)
  (nonce plaintext additionalData : list Z) : result (list Z) :=
  if negb (length nonce =? NonceSize)%nat
  then Panic ("chacha20: " ++ Error errInvalidNonceSize)%string
  else
    let Nonce := copy (make 12) nonce in
    let polyKey := make 32 in
    match XORKeyStream cpuid supportAVX2 polyKey polyKey Nonce (key c) 0 20
    with
    | (_, Some msg) => Panic msg
    | (polyKey, None) =>
        let n := length plaintext in
        let '(ret, ciphertext) :=
          sliceForAppend dst (Z.to_nat (Z.of_nat n + tagsize c)) in
        match
          XORKeyStream cpuid supportAVX2 ciphertext plaintext Nonce (key c)
                       1 20
        with
        | (_, Some msg) => Panic msg
        | (ciphertext, None) =>
            let tag := authenticate (firstn n ciphertext) additionalData
                                    polyKey in
            let ciphertext :=
              firstn n ciphertext
                ++ copy (skipn n ciphertext)
                        (firstn (Z.to_nat (tagsize c)) tag) in
            Ok (firstn (len dst) ret ++ ciphertext)
        end
    end.

(** [func (c *aead) Open(dst, nonce, ciphertext, additionalData []byte)
    ([]byte, error)]; the nil slice is [[]]. *)
Definition Open (c : aead) (dst : slice)
  (nonce ciphertext additionalData : list Z)
  : result (list Z * option error) :=
  if negb (length nonce =? NonceSize)%nat
  then Ok ([], Some errInvalidNonceSize)
  else if Z.of_nat (length ciphertext) <? tagsize c
  then Ok ([], Some errAuthFailed)
  else
    let Nonce := copy (make 12) nonce in
    let polyKey := make 32 in
    match XORKeyStream cpuid supportAVX2 polyKey polyKey Nonce (key c) 0 20
    with
    | (_, Some msg) => Panic msg
    | (polyKey, None) =>
        let n := Z.to_nat (Z.of_nat (length ciphertext) - tagsize c) in
        let tag := authenticate (firstn n ciphertext) additionalData
                                polyKey in
        let sum := skipn n ciphertext in
        if negb (ConstantTimeCompare (firstn (Z.to_nat (tagsize c)) tag)
                                     (firstn (Z.to_nat (tagsize c)) sum)
                 =? 1)
        then Ok ([], Some errAuthFailed)
        else
          let '(ret, plaintext) := sliceForAppend dst n in
          match
            XORKeyStream cpuid supportAVX2 plaintext (firstn n ciphertext)
                         Nonce (key c) 1 20
          with
          | (_, Some msg) => Panic msg
          | (plaintext, None) => Ok (firstn (len dst) ret ++ plaintext, None)
          end
    end.

End Package.

End AEAD.

(** ** A reference instance of the MAC: Poly1305 of RFC 7539

    Used to run the construction on concrete inputs. *)

Module Poly1305.
Import Bytes.

Definition p1305 : Z := 2 ^ 130 - 5.

Definition clamp (r : Z) : Z :=
  Z.land r 0x0ffffffc0ffffffc0ffffffc0fffffff.

Fixpoint absorb (fuel : nat) (r acc : Z) (msg : list Z) : Z :=
  match fuel with
  | O => acc
  | S k =>
      match msg with
      | [] => acc
      | _ =>
          let blk := firstn 16 msg in
          let n := le_value (blk ++ [1]) in
          absorb k r (((acc + n) * r) mod p1305) (skipn 16 msg)
      end
  end.

Definition mac (k msg : list Z) : list Z :=
  let r := clamp (le_value (firstn 16 k)) in
  let s := le_value (firstn 16 (skipn 16 k)) in
  le_bytes 16 (absorb (length msg) r 0 msg + s).

End Poly1305.

(** ** The keystream, as the specification describes it

    Block [i] of the keystream that starts at [counter] is the output of
    the Round Engine on the state built from the key, the nonce and
    [counter + i] modulo [2^32]. *)

Module Keystream.
Import Bytes ChaCha.

Definition keystream (key nonce : list Z) (counter rounds : Z) (nb : nat)
  : list Z :=
  flat_map
    (fun i => block_of (setState key nonce (add32 counter (Z.of_nat i)))
                       rounds)
    (seq 0 nb).

(** The number of keystream blocks that cover [len] bytes: the full blocks
    and one more for the 1-63 leftover bytes. *)
Definition blocks_needed (len : nat) : nat :=
  (len / 64 + (if len mod 64 =? 0 then 0 else 1))%nat.

End Keystream.

(** ** The construction, as the specification describes it *)

Module Construction.
Import Bytes ChaCha Keystream AEAD.

(** Zero-padding of [x] to the next multiple of 16 bytes. *)
Definition pad16 (x : list Z) : list Z :=
  make ((16 - length x mod 16) mod 16).

(** The byte sequence that is authenticated (section 4.5, step 4). *)
Definition mac_data (additionalData ciphertext : list Z) : list Z :=
  additionalData ++ pad16 additionalData
    ++ ciphertext ++ pad16 ciphertext
    ++ le_bytes 8 (Z.of_nat (length additionalData))
    ++ le_bytes 8 (Z.of_nat (length ciphertext)).

(** The one-time MAC key: the first 32 bytes of the keystream block of
    counter 0 (section 4.5, step 2). *)
Definition poly_key (k nonce : list Z) : list Z :=
  firstn 32 (block_of (setState k nonce 0) 20).

(** [plaintext XOR keystream(counter starting at 1)] (step 3). *)
Definition encrypt (k nonce plaintext : list Z) : list Z :=
  xor_bytes plaintext
    (keystream k nonce 1 20 (blocks_needed (length plaintext))).

(** The 16-byte tag of a ciphertext (step 4). *)
Definition tag_of (poly1305 : list Z -> list Z -> tag16)
  (k nonce additionalData ciphertext : list Z) : list Z :=
  proj1_sig (poly1305 (poly_key k nonce)
                      (mac_data additionalData ciphertext)).

(** A handle as the two constructors build it: tag size in 1..16. *)
Definition handle_ok (c : aead) : bool :=
  (1 <=? tagsize c) && (tagsize c <=? 16).

(** The part of a result of [Seal] that follows the [n] bytes of [dst]. *)
Definition appended (n : nat) (r : result (list Z)) : result (list Z) :=
  match r with
  | Ok l => Ok (skipn n l)
  | Panic msg => Panic msg
  end.

End Construction.

(** ** Concrete inputs: the test vector of RFC 7539, section 2.8.2 *)

Module Vector.
Import Bytes ChaCha AEAD.

Definition poly1305 (k msg : list Z) : tag16 :=
  exist _ (Poly1305.mac k msg) eq_refl.

Definition key : list Z := map Z.of_nat (seq 128 32).

Definition nonce : list Z := [7; 0; 0; 0; 64; 65; 66; 67; 68; 69; 70; 71].

Definition ad : list Z := [80; 81; 82; 83; 192; 193; 194; 195; 196; 197; 198; 199].

Definition plaintext : list Z :=
  map (fun a => Z.of_nat (Ascii.nat_of_ascii a))
    (list_ascii_of_string
       "Ladies and Gentlemen of the class of '99: If I could offer you only one tip for the future, sunscreen would be it.").

(** The expected ciphertext and tag of the RFC. *)
Definition sealed : list Z :=
  [211; 26; 141; 52; 100; 142; 96; 219; 123; 134; 175; 188; 83; 239;
   126; 194; 164; 173; 237; 81; 41; 110; 8; 254; 169; 226; 181; 167;
   54; 238; 98; 214; 61; 190; 164; 94; 140; 169; 103; 18; 130; 250;
   251; 105; 218; 146; 114; 139; 26; 113; 222; 10; 158; 6; 11; 41; 5;
   214; 165; 182; 126; 205; 59; 54; 146; 221; 189; 127; 45; 119; 139;
   140; 152; 3; 174; 227; 40; 9; 27; 88; 250; 179; 36; 228; 250; 214;
   117; 148; 85; 133; 128; 139; 72; 49; 215; 188; 63; 244; 222; 240;
   142; 75; 122; 157; 229; 118; 210; 101; 134; 206; 198; 75; 97; 22;
   26; 225; 11; 89; 79; 9; 226; 106; 126; 144; 46; 203; 208; 96; 6;
   145].

(** A destination with three bytes in use and room for five more. *)
Definition dst : slice :=
  {| elems := [1; 2; 3]; spare := [9; 9; 9; 9; 9] |}.

(** A handle with a 4-byte tag. *)
Definition short_tag : aead := {| AEAD.key := key; tagsize := 4 |}.

End Vector.

(** ** The other methods of the handle *)

Module Methods.
Import AEAD.

(** [func (c *aead) Overhead() int { return c.tagsize }] *)
Definition Overhead (c : aead) : Z := tagsize c.

(** [func (c *aead) NonceSize() int { return NonceSize }] *)
Definition NonceSize (c : aead) : nat := AEAD.NonceSize.

End Methods.

(** * Properties *)

(** ** Byte strings *)

Module BytesFacts.
Import Bytes.

Lemma all_bytes_Forall (l : list Z) :
  all_bytes l = true -> Forall byte_range l.
Proof.
  unfold all_bytes; intros H; apply Forall_forall; intros b Hb.
  rewrite forallb_forall in H; specialize (H b Hb).
  unfold is_byte in H; apply andb_true_iff in H; unfold byte_range; lia.
Qed.

Lemma length_le_bytes (n : nat) (x : Z) : length (le_bytes n x) = n.
Proof. revert x; induction n as [|n IH]; intros x; simpl; auto. Qed.

Lemma le_bytes_range (n : nat) (x : Z) : Forall byte_range (le_bytes n x).
Proof.
  revert x; induction n as [|n IH]; intros x; simpl; constructor; auto.
  unfold byte_range; apply Z.mod_pos_bound; lia.
Qed.

Lemma le_bytes_le_value (l : list Z) :
  Forall byte_range l -> le_bytes (length l) (le_value l) = l.
Proof.
  induction 1 as [|b r Hb Hr IH]; cbn [le_bytes le_value length]; auto.
  unfold byte_range in Hb.
  replace ((b + 256 * le_value r) mod 256) with b.
  - replace ((b + 256 * le_value r) / 256) with (le_value r);
      [now rewrite IH|].
    rewrite Z.mul_comm, Z.div_add by lia. rewrite Z.div_small; lia.
  - rewrite Z.mul_comm, Z.mod_add by lia. rewrite Z.mod_small; lia.
Qed.

Lemma le_bytes_le_value_n (n : nat) (l : list Z) :
  Forall byte_range l -> length l = n -> le_bytes n (le_value l) = l.
Proof. intros H <-; now apply le_bytes_le_value. Qed.

Lemma lxor_mod_256 (x y : Z) :
  Z.lxor x y mod 256 = Z.lxor (x mod 256) (y mod 256).
Proof.
  change 256 with (2 ^ 8).
  rewrite <- !Z.land_ones by lia.
  apply Z.bits_inj'; intros i Hi.
  rewrite Z.lxor_spec, !Z.land_spec, Z.lxor_spec.
  destruct (Z.testbit (Z.ones 8) i); rewrite ?andb_true_r, ?andb_false_r;
    reflexivity.
Qed.

Lemma lxor_div_256 (x y : Z) :
  Z.lxor x y / 256 = Z.lxor (x / 256) (y / 256).
Proof.
  change 256 with (2 ^ 8).
  rewrite <- !Z.shiftr_div_pow2 by lia. apply Z.shiftr_lxor.
Qed.

Lemma le_bytes_lxor (n : nat) (x y : Z) :
  le_bytes n (Z.lxor x y) = xor_bytes (le_bytes n x) (le_bytes n y).
Proof.
  revert x y; induction n as [|n IH]; intros x y; simpl; auto.
  now rewrite lxor_mod_256, lxor_div_256, IH.
Qed.

Lemma xor_bytes_nil_r (a : list Z) : xor_bytes a [] = [].
Proof. destruct a; reflexivity. Qed.

Lemma xor_bytes_comm (a b : list Z) : xor_bytes a b = xor_bytes b a.
Proof.
  revert b; induction a as [|x a IH]; intros [|y b]; simpl; auto.
  now rewrite Z.lxor_comm, IH.
Qed.

Lemma length_xor_bytes (a b : list Z) :
  length (xor_bytes a b) = Nat.min (length a) (length b).
Proof.
  revert b; induction a as [|x a IH]; intros [|y b]; simpl; auto.
Qed.

Lemma firstn_xor_bytes (m : nat) (a b : list Z) :
  firstn m (xor_bytes a b) = xor_bytes (firstn m a) (firstn m b).
Proof.
  revert a b; induction m as [|m IH]; intros [|x a] [|y b]; simpl; auto.
  now rewrite IH.
Qed.

Lemma skipn_xor_bytes (m : nat) (a b : list Z) :
  skipn m (xor_bytes a b) = xor_bytes (skipn m a) (skipn m b).
Proof.
  revert a b; induction m as [|m IH]; intros [|x a] [|y b]; simpl; auto.
  now rewrite xor_bytes_nil_r.
Qed.

Lemma xor_bytes_app (a1 a2 b1 b2 : list Z) :
  length a1 = length b1 ->
  xor_bytes (a1 ++ a2) (b1 ++ b2) = xor_bytes a1 b1 ++ xor_bytes a2 b2.
Proof.
  revert b1; induction a1 as [|x a1 IH]; intros [|y b1] H; simpl in *;
    try discriminate; auto.
  now rewrite IH by lia.
Qed.

Lemma xor_bytes_split (n : nat) (a k1 k2 : list Z) :
  length k1 = n -> (n <= length a)%nat ->
  xor_bytes a (k1 ++ k2)
  = xor_bytes (firstn n a) k1 ++ xor_bytes (skipn n a) k2.
Proof.
  intros Hk Ha. rewrite <- (firstn_skipn n a) at 1.
  apply xor_bytes_app. rewrite length_firstn; lia.
Qed.

Lemma xor_bytes_firstn_r (a b : list Z) :
  xor_bytes a (firstn (length a) b) = xor_bytes a b.
Proof.
  revert b; induction a as [|x a IH]; intros [|y b]; simpl; auto.
  now rewrite IH.
Qed.

Lemma xor_bytes_involutive (a k : list Z) :
  (length a <= length k)%nat -> xor_bytes (xor_bytes a k) k = a.
Proof.
  revert k; induction a as [|x a IH]; intros [|y k] H; simpl in *; auto;
    try lia.
  rewrite IH by lia. f_equal.
  now rewrite Z.lxor_assoc, Z.lxor_nilpotent, Z.lxor_0_r.
Qed.

Lemma lxor_byte_range (x y : Z) :
  byte_range x -> byte_range y -> byte_range (Z.lxor x y).
Proof.
  unfold byte_range; intros Hx Hy.
  assert (H : Z.lxor x y mod 256 = Z.lxor x y)
    by (rewrite lxor_mod_256, !Z.mod_small by lia; reflexivity).
  rewrite <- H; apply Z.mod_pos_bound; lia.
Qed.

Lemma xor_bytes_range (a b : list Z) :
  Forall byte_range a -> Forall byte_range b ->
  Forall byte_range (xor_bytes a b).
Proof.
  intros Ha; revert b; induction Ha as [|x a Hx Ha IH]; intros b Hb;
    destruct Hb as [|y b Hy Hb]; simpl; constructor; auto using lxor_byte_range.
Qed.

Lemma Forall_firstn {A} (P : A -> Prop) (m : nat) (l : list A) :
  Forall P l -> Forall P (firstn m l).
Proof.
  intros H; revert m; induction H; intros [|m]; simpl; constructor; auto.
Qed.

Lemma Forall_skipn {A} (P : A -> Prop) (m : nat) (l : list A) :
  Forall P l -> Forall P (skipn m l).
Proof.
  intros H; revert m; induction H; intros [|m]; simpl; auto.
Qed.

Lemma firstn_add {A} (m c : nat) (l : list A) :
  firstn (m + c) l = firstn m l ++ firstn c (skipn m l).
Proof.
  revert l; induction m as [|m IH]; intros [|x l]; simpl; auto.
  - now rewrite firstn_nil.
  - now rewrite IH.
Qed.

Lemma skipn_add {A} (m c : nat) (l : list A) :
  skipn (m + c) l = skipn c (skipn m l).
Proof.
  revert l; induction m as [|m IH]; intros [|x l]; simpl; auto.
  now rewrite skipn_nil.
Qed.

Lemma nth_xor_bytes (i : nat) (a b : list Z) :
  (i < length a)%nat -> (i < length b)%nat ->
  firstn 1 (skipn i (xor_bytes a b)) = [Z.lxor (nth i a 0) (nth i b 0)].
Proof.
  revert a b; induction i as [|i IH]; intros [|x a] [|y b] Ha Hb;
    simpl in *; try lia; auto.
  apply IH; lia.
Qed.

Lemma firstn_exact {A} (n : nat) (a b : list A) :
  length a = n -> firstn n (a ++ b) = a.
Proof.
  intros <-. rewrite firstn_app, Nat.sub_diag, firstn_O, app_nil_r.
  apply firstn_all.
Qed.

Lemma skipn_exact {A} (n : nat) (a b : list A) :
  length a = n -> skipn n (a ++ b) = b.
Proof.
  intros <-. rewrite skipn_app, Nat.sub_diag, skipn_all. reflexivity.
Qed.

(** One step of the word loop of [xor]: storing the exclusive or of two
    loaded words stores the exclusive or of their bytes. *)
Lemma store_xor_words (s w : list Z) (i : nat) :
  Forall byte_range s -> Forall byte_range w ->
  (8 * i + 8 <= length s)%nat -> (8 * i + 8 <= length w)%nat ->
  le_bytes 8 (Z.lxor (load64 w i) (load64 s i))
  = firstn 8 (skipn (8 * i) (xor_bytes s w)).
Proof.
  intros Hs Hw Ls Lw; unfold load64.
  rewrite le_bytes_lxor.
  assert (L : forall l : list Z, (8 * i + 8 <= length l)%nat ->
              length (firstn 8 (skipn (8 * i) l)) = 8%nat)
    by (intros l Hl; rewrite length_firstn, length_skipn; lia).
  rewrite (le_bytes_le_value_n 8 (firstn 8 (skipn (8 * i) w)))
    by auto using Forall_firstn, Forall_skipn.
  rewrite (le_bytes_le_value_n 8 (firstn 8 (skipn (8 * i) s)))
    by auto using Forall_firstn, Forall_skipn.
  now rewrite skipn_xor_bytes, firstn_xor_bytes, xor_bytes_comm.
Qed.

End BytesFacts.

(** ** Package chacha *)

Module ChaChaFacts.
Import Bytes BytesFacts ChaCha.

Lemma land_lnot_pow2 (x k : Z) :
  0 <= k -> Z.land x (Z.lnot (2 ^ k - 1)) = 2 ^ k * (x / 2 ^ k).
Proof.
  intros Hk. replace (2 ^ k - 1) with (Z.ones k)
    by (rewrite Z.ones_equiv; lia).
  rewrite <- Z.ldiff_land, Z.ldiff_ones_r by lia.
  rewrite Z.shiftl_mul_pow2, Z.shiftr_div_pow2 by lia. lia.
Qed.

Lemma mask_down_8 (n : nat) : mask_down n 8 = (8 * (n / 8))%nat.
Proof.
  unfold mask_down. rewrite (land_lnot_pow2 _ 3) by lia.
  change (2 ^ 3) with (Z.of_nat 8).
  rewrite <- Nat2Z.inj_div, <- Nat2Z.inj_mul. apply Nat2Z.id.
Qed.

Lemma mask_down_64 (n : nat) : mask_down n 64 = (64 * (n / 64))%nat.
Proof.
  unfold mask_down. rewrite (land_lnot_pow2 _ 6) by lia.
  change (2 ^ 6) with (Z.of_nat 64).
  rewrite <- Nat2Z.inj_div, <- Nat2Z.inj_mul. apply Nat2Z.id.
Qed.

Lemma length_set_at (d : list Z) (i : nat) (v : Z) :
  (i < length d)%nat -> length (set_at d i v) = length d.
Proof.
  intros H; unfold set_at.
  rewrite length_app, length_firstn; cbn [length]; rewrite length_skipn; lia.
Qed.

Section XorLoops.

Variables dst src with_ : list Z.
Hypothesis src_bytes : Forall byte_range src.
Hypothesis with_bytes : Forall byte_range with_.

Hypothesis room : (Nat.min (length src) (length with_) <= length dst)%nat.

Lemma word_loop (k : nat) :
  (8 * k <= Nat.min (length src) (length with_))%nat ->
  fold_left
    (fun d i => store64 d i (Z.lxor (load64 with_ i) (load64 src i)))
    (seq 0 k) dst
  = xor_upto dst src with_ (8 * k).
Proof.
  induction k as [|k IH]; intros Hk.
  - reflexivity.
  - rewrite seq_S, fold_left_app, IH by lia; cbn [fold_left Nat.add].
    unfold store64, xor_upto in *.
    assert (Lx : length (firstn (8 * k) (xor_bytes src with_)) = (8 * k)%nat)
      by (rewrite length_firstn, length_xor_bytes; lia).
    rewrite firstn_app, Lx, Nat.sub_diag, firstn_O, app_nil_r.
    rewrite firstn_firstn, Nat.min_id.
    rewrite skipn_app, Lx.
    rewrite (skipn_all2 (firstn _ _)) by lia.
    replace (8 * k + 8 - 8 * k)%nat with 8%nat by lia.
    rewrite app_nil_l, <- skipn_add.
    rewrite store_xor_words by (auto; lia).
    replace (8 * S k)%nat with (8 * k + 8)%nat by lia.
    now rewrite firstn_add, <- app_assoc.
Qed.

Lemma byte_loop (m j : nat) :
  (m + j <= Nat.min (length src) (length with_))%nat ->
  fold_left
    (fun d i => set_at d i (Z.lxor (nth i src 0) (nth i with_ 0)))
    (seq m j) (xor_upto dst src with_ m)
  = xor_upto dst src with_ (m + j).
Proof.
  induction j as [|j IH]; intros Hj.
  - now rewrite Nat.add_0_r.
  - rewrite seq_S, fold_left_app, IH by lia; cbn [fold_left Nat.add].
    unfold set_at, xor_upto in *.
    assert (Lx : length (firstn (m + j) (xor_bytes src with_)) = (m + j)%nat)
      by (rewrite length_firstn, length_xor_bytes; lia).
    rewrite firstn_app, Lx, Nat.sub_diag, firstn_O, app_nil_r.
    rewrite firstn_firstn, Nat.min_id.
    rewrite skipn_app, Lx.
    rewrite (skipn_all2 (firstn _ _)) by lia.
    replace (S (m + j) - (m + j))%nat with 1%nat by lia.
    replace (skipn 1 (skipn (m + j) dst)) with (skipn (m + j + 1) dst)
      by apply skipn_add.
    rewrite app_nil_l.
    replace (m + S j)%nat with (m + j + 1)%nat by lia.
    rewrite (firstn_add (m + j) 1), <- app_assoc. f_equal.
    rewrite nth_xor_bytes by lia. reflexivity.
Qed.

(** [xor] writes [src[i] ^ with[i]] for the first [n] bytes of [dst] and
    leaves the rest; it returns [n]. *)
Lemma xor_bytewise :
  xor dst src with_
  = (xor_bytes src with_
       ++ skipn (Nat.min (length src) (length with_)) dst,
     Nat.min (length src) (length with_)).
Proof.
  unfold xor.
  remember (Nat.min (length src) (length with_)) as n eqn:Dn.
  assert (En : (if (length with_ <? length src)%nat
                then length with_ else length src) = n).
  { destruct (Nat.ltb_spec (length with_) (length src)); lia. }
  rewrite En, mask_down_8. f_equal.
  assert (Hw : (8 * (n / 8) <= n)%nat)
    by (apply Nat.Div0.mul_div_le).
  replace (if (0 <? n / 8)%nat then _ else dst)
    with (xor_upto dst src with_ (8 * (n / 8))).
  - rewrite byte_loop by lia.
    replace (8 * (n / 8) + (n - 8 * (n / 8)))%nat with n by lia.
    unfold xor_upto. rewrite firstn_all2; auto.
    rewrite length_xor_bytes; lia.
  - destruct (Nat.ltb_spec 0 (n / 8)) as [H|H].
    + rewrite word_loop by lia. reflexivity.
    + replace (n / 8)%nat with 0%nat by lia. reflexivity.
Qed.

End XorLoops.

(** *** The Round Engine *)

Lemma length_words_of (n : nat) (bytes : list Z) :
  length (words_of n bytes) = n.
Proof. revert bytes; induction n; intros; simpl; auto. Qed.

Lemma length_set_at4 (s : list Z) (i j k l : nat) (a b c d : Z) :
  (i < length s)%nat -> (j < length s)%nat -> (k < length s)%nat ->
  (l < length s)%nat ->
  length (set_at (set_at (set_at (set_at s i a) j b) k c) l d) = length s.
Proof.
  intros Hi Hj Hk Hl.
  assert (L1 : length (set_at s i a) = length s)
    by now apply length_set_at.
  assert (L2 : length (set_at (set_at s i a) j b) = length s)
    by (rewrite length_set_at; lia).
  assert (L3 : length (set_at (set_at (set_at s i a) j b) k c) = length s)
    by (rewrite length_set_at; lia).
  rewrite length_set_at; lia.
Qed.

Lemma length_quarter_round (i j k l : nat) (s : list Z) :
  (i < length s)%nat -> (j < length s)%nat -> (k < length s)%nat ->
  (l < length s)%nat -> length (quarter_round i j k l s) = length s.
Proof.
  intros; unfold quarter_round; cbv zeta. now apply length_set_at4.
Qed.

Lemma length_double_round (s : list Z) :
  length s = 16%nat -> length (double_round s) = 16%nat.
Proof.
  intros H; unfold double_round; cbv zeta.
  assert (Q : forall i j k l t, (i < 16)%nat -> (j < 16)%nat ->
              (k < 16)%nat -> (l < 16)%nat -> length t = 16%nat ->
              length (quarter_round i j k l t) = 16%nat).
  { intros i j k l t Hi Hj Hk Hl Ht.
    rewrite length_quarter_round; rewrite ?Ht; auto. }
  repeat (apply Q; [lia | lia | lia | lia |]). exact H.
Qed.

Lemma iterate_0 {A : Type} (f : A -> A) (x : A) : iterate 0 f x = x.
Proof. reflexivity. Qed.

Lemma iterate_S {A : Type} (n : nat) (f : A -> A) (x : A) :
  iterate (S n) f x = iterate n f (f x).
Proof. reflexivity. Qed.

Lemma length_iterate_double_round (n : nat) (s : list Z) :
  length s = 16%nat -> length (iterate n double_round s) = 16%nat.
Proof.
  revert s; induction n as [|n IH]; intros s H.
  - rewrite iterate_0; exact H.
  - rewrite iterate_S. apply IH. apply length_double_round. exact H.
Qed.

Lemma length_add_words (a b : list Z) :
  length (add_words a b) = Nat.min (length a) (length b).
Proof.
  revert b; induction a as [|x a IH]; intros [|y b]; simpl; auto.
Qed.

Lemma length_bytes_of (w : list Z) :
  length (bytes_of w) = (4 * length w)%nat.
Proof.
  unfold bytes_of; induction w as [|x w IH]; cbn [flat_map length]; auto.
  rewrite length_app, IH, length_le_bytes; lia.
Qed.

Lemma bytes_of_range (w : list Z) : Forall byte_range (bytes_of w).
Proof.
  unfold bytes_of; induction w as [|x w IH]; cbn [flat_map]; auto.
  apply Forall_app; split; auto using le_bytes_range.
Qed.

Lemma length_block_of (state : list Z) (rounds : Z) :
  length (block_of state rounds) = 64%nat.
Proof.
  unfold block_of; cbv zeta.
  rewrite length_bytes_of, length_add_words.
  rewrite length_iterate_double_round by apply length_words_of.
  now rewrite length_words_of.
Qed.

Lemma block_of_range (state : list Z) (rounds : Z) :
  Forall byte_range (block_of state rounds).
Proof. apply bytes_of_range. Qed.

Local Opaque block_of.

(** *** The state and its counter *)

Lemma le_value_le_bytes (n : nat) (x : Z) :
  le_value (le_bytes n x) = x mod 256 ^ Z.of_nat n.
Proof.
  revert x; induction n as [|n IH]; intros x.
  - cbn [le_bytes le_value]. now rewrite Z.pow_0_r, Z.mod_1_r.
  - cbn [le_bytes le_value]. rewrite IH, Nat2Z.inj_succ, Z.pow_succ_r by lia.
    rewrite Z.rem_mul_r by lia. reflexivity.
Qed.

Lemma le_bytes_mod (n : nat) (x : Z) :
  le_bytes n (x mod 256 ^ Z.of_nat n) = le_bytes n x.
Proof.
  rewrite <- le_value_le_bytes.
  apply le_bytes_le_value_n; auto using le_bytes_range, length_le_bytes.
Qed.

Lemma length_key_part (key : list Z) :
  length (firstn 32 (key ++ make 32)) = 32%nat.
Proof.
  rewrite length_firstn, length_app; unfold make; rewrite repeat_length; lia.
Qed.

Lemma length_nonce_part (nonce : list Z) :
  length (firstn 12 (nonce ++ make 12)) = 12%nat.
Proof.
  rewrite length_firstn, length_app; unfold make; rewrite repeat_length; lia.
Qed.

Lemma setState_mod (key nonce : list Z) (counter : Z) :
  setState key nonce (counter mod 2 ^ 32) = setState key nonce counter.
Proof.
  unfold setState. change (2 ^ 32) with (256 ^ Z.of_nat 4).
  now rewrite le_bytes_mod.
Qed.

Lemma next_state_setState (key nonce : list Z) (counter : Z) :
  next_state (setState key nonce counter)
  = setState key nonce (add32 counter 1).
Proof.
  unfold next_state, setState.
  set (K := firstn 32 (key ++ make 32)).
  set (N := firstn 12 (nonce ++ make 12)).
  assert (LK : length K = 32%nat) by apply length_key_part.
  assert (E : sigma ++ K ++ le_bytes 4 counter ++ N
              = (sigma ++ K) ++ le_bytes 4 counter ++ N)
    by now rewrite <- app_assoc.
  assert (L48 : length (sigma ++ K) = 48%nat)
    by (rewrite length_app, LK; reflexivity).
  rewrite E.
  rewrite (firstn_exact 48), (skipn_exact 48) by exact L48.
  rewrite (firstn_exact 4) by apply length_le_bytes.
  change 52%nat with (48 + 4)%nat.
  rewrite skipn_add, (skipn_exact 48) by exact L48.
  rewrite (skipn_exact 4) by apply length_le_bytes.
  rewrite le_value_le_bytes. change (256 ^ Z.of_nat 4) with (2 ^ 32).
  unfold add32. rewrite Z.add_mod_idemp_l by lia.
  now rewrite <- app_assoc.
Qed.

(** *** The keystream and the block engines *)

Section Stream.
Import Keystream.

Variables key nonce : list Z.
Variable rounds : Z.

Lemma add32_add32 (c a b : Z) : add32 (add32 c a) b = add32 c (a + b).
Proof.
  unfold add32. rewrite Z.add_mod_idemp_l by lia. f_equal; lia.
Qed.

Lemma setState_add32_0 (c : Z) :
  setState key nonce (add32 c 0) = setState key nonce c.
Proof. unfold add32. now rewrite Z.add_0_r, setState_mod. Qed.

Lemma keystream_S (c : Z) (k : nat) :
  keystream key nonce c rounds (S k)
  = block_of (setState key nonce c) rounds
      ++ keystream key nonce (add32 c 1) rounds k.
Proof.
  unfold keystream. rewrite <- cons_seq. cbn [flat_map].
  rewrite setState_add32_0. f_equal.
  rewrite <- seq_shift, flat_map_concat_map, map_map, <- flat_map_concat_map.
  apply flat_map_ext; intros i.
  now rewrite add32_add32, Nat2Z.inj_succ, Z.add_1_l.
Qed.

Lemma keystream_snoc (c : Z) (k : nat) :
  keystream key nonce c rounds (S k)
  = keystream key nonce c rounds k
      ++ block_of (setState key nonce (add32 c (Z.of_nat k))) rounds.
Proof.
  unfold keystream. rewrite seq_S, flat_map_app. cbn [flat_map Nat.add].
  now rewrite app_nil_r.
Qed.

Lemma length_keystream (c : Z) (k : nat) :
  length (keystream key nonce c rounds k) = (64 * k)%nat.
Proof.
  revert c; induction k as [|k IH]; intros c.
  - reflexivity.
  - rewrite keystream_S, length_app, length_block_of, IH. lia.
Qed.

Lemma keystream_range (c : Z) (k : nat) :
  Forall byte_range (keystream key nonce c rounds k).
Proof.
  revert c; induction k as [|k IH]; intros c.
  - constructor.
  - rewrite keystream_S. apply Forall_app; split;
      [apply block_of_range | apply IH].
Qed.

(** The block engine on the state of counter [c]: [nb] blocks of [src] are
    XORed with the keystream blocks of counters [c], [c+1], ..., and the
    counter of the state has advanced by [nb]. *)
Lemma blocks_spec_keystream (nb : nat) (src : list Z) (c : Z) :
  (64 * nb <= length src)%nat ->
  blocks_spec nb src (setState key nonce c) rounds
  = (xor_bytes (firstn (64 * nb) src) (keystream key nonce c rounds nb),
     setState key nonce (add32 c (Z.of_nat nb))).
Proof.
  revert src c; induction nb as [|nb IH]; intros src c H.
  - cbn [blocks_spec]. now rewrite setState_add32_0.
  - cbn [blocks_spec]. unfold core_spec.
    rewrite next_state_setState, IH by (rewrite length_skipn; lia).
    rewrite keystream_S, add32_add32.
    replace (1 + Z.of_nat nb) with (Z.of_nat (S nb)) by lia.
    f_equal.
    replace (64 * S nb)%nat with (64 + 64 * nb)%nat by lia.
    rewrite firstn_add. symmetry; apply xor_bytes_app.
    rewrite length_firstn, length_block_of; lia.
Qed.

Section Dispatched.

Variables cpuid supportAVX2 : Z.

Lemma xorBlocks_runs_variant (dst src state : list Z) :
  xorBlocks cpuid supportAVX2 dst src state rounds
  = run_variant (xorBlocks_variant cpuid supportAVX2 src)
                dst src state rounds.
Proof.
  unfold xorBlocks, xorBlocks_variant.
  destruct (useAVX2 supportAVX2 && (128 <=? length src)%nat);
    [reflexivity|].
  destruct (useSSSE3 cpuid); reflexivity.
Qed.

Lemma xorBlocks_any_variant (v : variant) (dst src state : list Z) :
  run_variant v dst src state rounds = xorBlocks_spec dst src state rounds.
Proof. destruct v; reflexivity. Qed.

Lemma xorBlocks_keystream (dst src : list Z) (c : Z) :
  (length src <= length dst)%nat ->
  let q := (length src / 64)%nat in
  xorBlocks cpuid supportAVX2 dst src (setState key nonce c) rounds
  = (xor_bytes (firstn (64 * q) src) (keystream key nonce c rounds q)
       ++ skipn (64 * q) dst,
     setState key nonce (add32 c (Z.of_nat q))).
Proof.
  intros H q. rewrite xorBlocks_runs_variant, xorBlocks_any_variant.
  unfold xorBlocks_spec. fold q.
  assert (Hq : (64 * q <= length src)%nat)
    by (apply Nat.Div0.mul_div_le).
  rewrite blocks_spec_keystream by exact Hq.
  rewrite length_xor_bytes, length_firstn, length_keystream.
  now replace (Nat.min (Nat.min (64 * q) (length src)) (64 * q))
    with (64 * q)%nat by lia.
Qed.

Lemma Core_block (c : Z) :
  Core cpuid (setState key nonce c) rounds
  = (block_of (setState key nonce c) rounds,
     setState key nonce (add32 c 1)).
Proof.
  unfold Core, coreSSSE3, coreSSE2, core_spec.
  rewrite next_state_setState. now destruct (useSSSE3 cpuid).
Qed.

Lemma rounds_guard (r : Z) :
  0 < r -> r mod 2 = 0 -> (r <=? 0) || negb (Z.rem r 2 =? 0) = false.
Proof.
  intros Hpos Heven. rewrite Z.rem_mod_nonneg by lia. rewrite Heven.
  destruct (Z.leb_spec r 0); [lia | reflexivity].
Qed.

Lemma blocks_needed_exact (len : nat) :
  (len mod 64 = 0)%nat -> blocks_needed len = (len / 64)%nat.
Proof. unfold blocks_needed; intros ->; cbn [Nat.eqb]; lia. Qed.

Lemma blocks_needed_partial (len : nat) :
  (len mod 64 <> 0)%nat -> blocks_needed len = S (len / 64).
Proof.
  unfold blocks_needed; intros H.
  destruct (Nat.eqb_spec (len mod 64) 0); [contradiction | lia].
Qed.

(** What [XORKeyStream] computes when its two guards pass. *)
Lemma XORKeyStream_keystream (dst src : list Z) (c : Z) :
  (length src <= length dst)%nat ->
  0 < rounds -> rounds mod 2 = 0 ->
  Forall byte_range src ->
  XORKeyStream cpuid supportAVX2 dst src nonce key c rounds
  = (xor_bytes src
       (keystream key nonce c rounds (blocks_needed (length src)))
       ++ skipn (length src) dst,
     None).
Proof.
  intros Hlen Hpos Heven Hsrc. unfold XORKeyStream.
  destruct (Nat.ltb_spec (length dst) (length src)) as [Hlt|_]; [lia|].
  rewrite rounds_guard by assumption.
  set (L := length src) in *. set (q := (L / 64)%nat).
  rewrite mask_down_64. fold q.
  assert (Hq : (64 * q <= L)%nat) by apply Nat.Div0.mul_div_le.
  assert (Hmod : (L mod 64 = L - 64 * q)%nat)
    by (unfold q; rewrite Nat.Div0.mod_eq; reflexivity).
  set (X := xor_bytes (firstn (64 * q) src) (keystream key nonce c rounds q)).
  assert (LX : length X = (64 * q)%nat).
  { unfold X. rewrite length_xor_bytes, length_firstn, length_keystream.
    fold L. lia. }
  assert (Hfull :
    (if (64 <=? L)%nat
     then xorBlocks cpuid supportAVX2 dst src (setState key nonce c) rounds
     else (dst, setState key nonce c))
    = (X ++ skipn (64 * q) dst,
       setState key nonce (add32 c (Z.of_nat q)))).
  { destruct (Nat.leb_spec 64 L) as [H64|H64].
    - now rewrite xorBlocks_keystream.
    - assert (q = 0%nat) as Hq0 by (unfold q; now apply Nat.div_small).
      unfold X. rewrite Hq0. cbn [Nat.mul firstn xor_bytes skipn app].
      now rewrite setState_add32_0. }
  rewrite Hfull.
  destruct (Nat.ltb_spec 0 (L - 64 * q)) as [Hrest|Hrest].
  - rewrite Core_block. rewrite (firstn_exact (64 * q)) by exact LX.
    rewrite (skipn_exact (64 * q)) by exact LX.
    rewrite xor_bytewise;
      [ | apply Forall_skipn, Hsrc | apply block_of_range
        | rewrite !length_skipn; fold L; lia ].
    cbn [fst].
    rewrite length_skipn, length_block_of. fold L.
    replace (Nat.min (L - 64 * q) 64) with (L - 64 * q)%nat
      by (assert (L mod 64 < 64)%nat by (apply Nat.mod_upper_bound; lia);
          lia).
    rewrite <- skipn_add.
    replace (64 * q + (L - 64 * q))%nat with L by lia.
    rewrite blocks_needed_partial by lia. fold q.
    rewrite keystream_snoc, app_assoc.
    rewrite (xor_bytes_split (64 * q) src)
      by (rewrite ?length_keystream; fold L; lia).
    reflexivity.
  - rewrite blocks_needed_exact by lia. fold q.
    assert (HL : (64 * q)%nat = L) by lia.
    unfold X. rewrite HL. unfold L at 1. now rewrite firstn_all.
Qed.

End Dispatched.

End Stream.

End ChaChaFacts.

(** ** Package chacha20 *)

Module AEADFacts.
Import Bytes BytesFacts ChaCha ChaChaFacts Keystream AEAD Construction.

Lemma make_range (n : nat) : Forall byte_range (make n).
Proof.
  unfold make; induction n; cbn [repeat]; constructor; auto.
  unfold byte_range; lia.
Qed.

Lemma length_make (n : nat) : length (make n) = n.
Proof. apply repeat_length. Qed.

Lemma xor_bytes_zeros (n : nat) (k : list Z) :
  xor_bytes (make n) k = firstn n k.
Proof.
  unfold make; revert k; induction n as [|n IH]; intros [|y k];
    cbn [repeat xor_bytes firstn]; auto.
  now rewrite IH, Z.lxor_0_l.
Qed.

(** [copy] into a fresh array of the size of the source is the source. *)
Lemma copy_make (n : nat) (l : list Z) :
  length l = n -> copy (make n) l = l.
Proof.
  intros H; unfold copy. rewrite length_make, H, Nat.min_id.
  rewrite <- H at 1. rewrite firstn_all, skipn_all2 by (rewrite length_make; lia).
  apply app_nil_r.
Qed.

Lemma copy_same_length (d l : list Z) :
  length d = length l -> copy d l = l.
Proof.
  intros H; unfold copy. rewrite H, Nat.min_id, firstn_all.
  rewrite skipn_all2 by lia. apply app_nil_r.
Qed.

(** *** [sliceForAppend] *)

Lemma sliceForAppend_shape (d : slice) (n : nat) :
  exists t, length t = n /\ sliceForAppend d n = (elems d ++ t, t).
Proof.
  unfold sliceForAppend, len, cap.
  destruct (Nat.leb_spec (length (elems d) + n)
                         (length (elems d) + length (spare d))) as [H|H].
  - exists (firstn n (spare d)). split.
    + rewrite length_firstn; lia.
    + rewrite firstn_app, firstn_all2 by lia.
      replace (length (elems d) + n - length (elems d))%nat with n by lia.
      now rewrite skipn_exact.
  - exists (make n). split; [apply length_make|].
    assert (E : copy (make (length (elems d) + n)) (elems d)
                = elems d ++ make n).
    { unfold copy. rewrite length_make.
      replace (Nat.min (length (elems d) + n) (length (elems d)))
        with (length (elems d)) by lia.
      rewrite firstn_all. f_equal. unfold make.
      now rewrite repeat_app, skipn_exact by apply repeat_length. }
    now rewrite E, skipn_exact.
Qed.

(** *** [ConstantTimeCompare] *)

Lemma fold_lor_zero (l : list (Z * Z)) (a : Z) :
  fold_left (fun v p => Z.lor v (Z.lxor (fst p) (snd p))) l a = 0
  <-> a = 0 /\ Forall (fun p => fst p = snd p) l.
Proof.
  revert a; induction l as [|p l IH]; intros a; cbn [fold_left].
  - split; [intros H; split; auto | tauto].
  - rewrite IH, Z.lor_eq_0_iff, Z.lxor_eq_0_iff. split.
    + intros [[Ha Hp] Hl]; split; auto.
    + intros [Ha Hl]; inversion Hl; subst; auto.
Qed.

Lemma combine_diag (x y : list Z) :
  length x = length y ->
  Forall (fun p => fst p = snd p) (combine x y) <-> x = y.
Proof.
  revert y; induction x as [|a x IH]; intros [|b y] H; cbn in H;
    try discriminate.
  - split; auto.
  - cbn [combine]. split.
    + intros F; inversion F as [|p l Hp Hl]; subst; cbn in Hp; subst.
      f_equal; apply IH; auto.
    + intros E; inversion E; subst. constructor; [reflexivity|].
      apply IH; auto.
Qed.

Lemma ConstantTimeCompare_spec (x y : list Z) :
  ConstantTimeCompare x y = 1 <-> x = y.
Proof.
  unfold ConstantTimeCompare.
  destruct (Nat.eqb_spec (length x) (length y)) as [H|H]; cbn [negb].
  - destruct (Z.eqb_spec
      (fold_left (fun v p => Z.lor v (Z.lxor (fst p) (snd p)))
                 (combine x y) 0) 0) as [E|E].
    + apply fold_lor_zero in E. destruct E as [_ E].
      apply combine_diag in E; auto. split; auto.
    + split; [discriminate|]. intros ->. exfalso; apply E.
      apply fold_lor_zero; split; auto. now apply combine_diag.
  - split; [discriminate|]. intros ->; contradiction.
Qed.

Lemma compare_accepts (x : list Z) :
  negb (ConstantTimeCompare x x =? 1) = false.
Proof.
  assert (H : ConstantTimeCompare x x = 1)
    by now apply ConstantTimeCompare_spec.
  now rewrite H.
Qed.

Lemma compare_rejects (x y : list Z) :
  x <> y -> negb (ConstantTimeCompare x y =? 1) = true.
Proof.
  intros H. destruct (Z.eqb_spec (ConstantTimeCompare x y) 1) as [E|E];
    [|reflexivity].
  apply ConstantTimeCompare_spec in E; contradiction.
Qed.

(** *** [authenticate] *)

Lemma byte_shr_le_bytes (x : Z) :
  [ byte_shr x 0; byte_shr x 8; byte_shr x 16; byte_shr x 24;
    byte_shr x 32; byte_shr x 40; byte_shr x 48; byte_shr x 56 ]
  = le_bytes 8 x.
Proof.
  cbn [le_bytes]. unfold byte_shr.
  rewrite !Z.shiftr_div_pow2 by lia.
  rewrite !Z.div_div by lia.
  change (2 ^ 0) with 1. rewrite Z.div_1_r.
  reflexivity.
Qed.

Lemma trailer_le_bytes (a c : Z) :
  [ byte_shr a 0; byte_shr a 8; byte_shr a 16; byte_shr a 24;
    byte_shr a 32; byte_shr a 40; byte_shr a 48; byte_shr a 56;
    byte_shr c 0; byte_shr c 8; byte_shr c 16; byte_shr c 24;
    byte_shr c 32; byte_shr c 40; byte_shr c 48; byte_shr c 56 ]
  = le_bytes 8 a ++ le_bytes 8 c.
Proof. now rewrite <- !byte_shr_le_bytes. Qed.

Lemma length_mod_16 (n : nat) :
  (Z.of_nat n mod 2 ^ 64) mod TagSize = Z.of_nat (n mod 16).
Proof.
  unfold TagSize. rewrite Z.mod_mod_divide.
  - now rewrite Nat2Z.inj_mod.
  - exists (2 ^ 60); reflexivity.
Qed.

(** The padding that [authenticate] writes after [x] is the padding to
    the next multiple of 16. *)
Lemma pad_written (h : Hash) (x : list Z) :
  let pad := (Z.of_nat (length x) mod 2 ^ 64) mod TagSize in
  (if 0 <? pad then Write h (make (Z.to_nat (16 - pad))) else h)
  = Write h (pad16 x).
Proof.
  cbv zeta. rewrite length_mod_16. unfold pad16.
  assert (B : (length x mod 16 < 16)%nat)
    by (apply Nat.mod_upper_bound; lia).
  destruct (Z.ltb_spec 0 (Z.of_nat (length x mod 16))) as [H|H].
  - do 2 f_equal.
    rewrite (Nat.mod_small (16 - _)) by lia. lia.
  - replace (length x mod 16)%nat with 0%nat by lia.
    cbn. unfold Write. rewrite app_nil_r. now destruct h.
Qed.

Lemma pad16_boundary (x : list Z) :
  (length (x ++ pad16 x) mod 16 = 0)%nat /\ (length (pad16 x) < 16)%nat.
Proof.
  unfold pad16. rewrite length_app, length_make.
  assert (B : (length x mod 16 < 16)%nat)
    by (apply Nat.mod_upper_bound; lia).
  split; [|apply Nat.mod_upper_bound; lia].
  rewrite (Nat.div_mod_eq (length x) 16) at 1.
  destruct (Nat.eq_dec (length x mod 16) 0) as [E|E].
  - rewrite E. cbn [Nat.sub]. rewrite Nat.Div0.mod_same, !Nat.add_0_r.
    rewrite Nat.mul_comm. apply Nat.Div0.mod_mul.
  - rewrite (Nat.mod_small (16 - _)) by lia.
    replace (16 * (length x / 16) + length x mod 16
             + (16 - length x mod 16))%nat
      with ((1 + length x / 16) * 16)%nat by lia.
    apply Nat.Div0.mod_mul.
Qed.

Section Authenticate.

Variable poly1305 : list Z -> list Z -> tag16.

Lemma authenticate_mac_data (ciphertext additionalData k : list Z) :
  authenticate poly1305 ciphertext additionalData k
  = proj1_sig (poly1305 k (mac_data additionalData ciphertext)).
Proof.
  unfold authenticate. cbv zeta.
  rewrite !pad_written, trailer_le_bytes.
  change (2 ^ 64) with (256 ^ Z.of_nat 8). rewrite !le_bytes_mod.
  unfold Sum, Write, New, mac_data; cbn [hkey absorbed app].
  now rewrite <- !app_assoc.
Qed.

Lemma length_authenticate (ciphertext additionalData k : list Z) :
  length (authenticate poly1305 ciphertext additionalData k) = 16%nat.
Proof.
  rewrite authenticate_mac_data. apply proj2_sig.
Qed.

End Authenticate.

(** *** [Seal] and [Open] *)

Local Opaque block_of.

Lemma handle_ok_range (c : aead) :
  handle_ok c = true -> 1 <= tagsize c <= 16.
Proof.
  unfold handle_ok; intros H; apply andb_true_iff in H. lia.
Qed.

(** The handles that the two constructors return are the well-formed
    ones. *)
Lemma NewChaCha20Poly1305_ok (k : list Z) :
  handle_ok (NewChaCha20Poly1305 k) = true.
Proof. reflexivity. Qed.

Lemma NewChaCha20Poly1305WithTagSize_ok (k : list Z) (ts : Z) :
  (1 <= ts <= 16 ->
   NewChaCha20Poly1305WithTagSize k ts
   = (Some {| key := k; tagsize := ts |}, None)
   /\ handle_ok {| key := k; tagsize := ts |} = true)
  /\ (~ 1 <= ts <= 16 ->
      NewChaCha20Poly1305WithTagSize k ts
      = (None, Some "tag size must be between 1 and 16"%string)).
Proof.
  unfold NewChaCha20Poly1305WithTagSize, handle_ok, TagSize; cbn [tagsize].
  destruct (Z.ltb_spec ts 1), (Z.ltb_spec 16 ts),
    (Z.leb_spec 1 ts), (Z.leb_spec ts 16); cbn [orb andb];
    split; intros; try lia; auto.
Qed.

Lemma length_encrypt (k nonce plaintext : list Z) :
  length (encrypt k nonce plaintext) = length plaintext.
Proof.
  unfold encrypt. rewrite length_xor_bytes, length_keystream.
  unfold blocks_needed.
  pose proof (Nat.div_mod_eq (length plaintext) 64) as D.
  assert (B : (length plaintext mod 64 < 64)%nat)
    by (apply Nat.mod_upper_bound; lia).
  destruct (Nat.eqb_spec (length plaintext mod 64) 0); lia.
Qed.

Lemma encrypt_range (k nonce plaintext : list Z) :
  Forall byte_range plaintext ->
  Forall byte_range (encrypt k nonce plaintext).
Proof. intros H; apply xor_bytes_range; auto using keystream_range. Qed.

(** Decryption is encryption: the same keystream is XORed again. *)
Lemma encrypt_involutive (k nonce plaintext : list Z) :
  encrypt k nonce (encrypt k nonce plaintext) = plaintext.
Proof.
  unfold encrypt at 1. rewrite length_encrypt. unfold encrypt.
  apply xor_bytes_involutive.
  pose proof (length_encrypt k nonce plaintext) as L. unfold encrypt in L.
  rewrite length_xor_bytes in L. lia.
Qed.

Section SealOpen.

Variables cpuid supportAVX2 : Z.
Variable poly1305 : list Z -> list Z -> tag16.

Lemma polyKey_derivation (k nonce : list Z) :
  XORKeyStream cpuid supportAVX2 (make 32) (make 32) nonce k 0 20
  = (poly_key k nonce, None).
Proof.
  rewrite XORKeyStream_keystream;
    [ | rewrite !length_make; lia | lia | reflexivity | apply make_range ].
  rewrite length_make.
  change (blocks_needed 32) with 1%nat.
  rewrite keystream_S. unfold keystream at 1. cbn [seq flat_map].
  rewrite xor_bytes_zeros, !app_nil_r. unfold poly_key. reflexivity.
Qed.

Lemma Seal_sealed (c : aead) (d : slice) (nonce plaintext ad : list Z) :
  length nonce = 12%nat -> handle_ok c = true ->
  Forall byte_range plaintext ->
  Seal cpuid supportAVX2 poly1305 c d nonce plaintext ad
  = Ok (elems d
          ++ encrypt (key c) nonce plaintext
          ++ firstn (Z.to_nat (tagsize c))
               (tag_of poly1305 (key c) nonce ad
                  (encrypt (key c) nonce plaintext))).
Proof.
  intros Hn Hc Hp. apply handle_ok_range in Hc.
  unfold Seal. rewrite Hn. cbn [Nat.eqb NonceSize negb].
  rewrite copy_make by exact Hn.
  rewrite polyKey_derivation.
  set (n := length plaintext). set (ts := Z.to_nat (tagsize c)).
  replace (Z.to_nat (Z.of_nat n + tagsize c)) with (n + ts)%nat
    by (unfold ts; lia).
  destruct (sliceForAppend_shape d (n + ts)) as (t & Lt & E).
  rewrite E.
  rewrite XORKeyStream_keystream;
    [ | fold n; lia | lia | reflexivity | exact Hp ].
  fold n. fold (encrypt (key c) nonce plaintext).
  set (ct := encrypt (key c) nonce plaintext).
  assert (Lct : length ct = n) by apply length_encrypt.
  rewrite (firstn_exact n) by exact Lct.
  rewrite (skipn_exact n) by exact Lct.
  rewrite (firstn_exact (len d)) by reflexivity.
  rewrite authenticate_mac_data. fold (tag_of poly1305 (key c) nonce ad ct).
  rewrite copy_same_length; [reflexivity|].
  rewrite length_skipn, length_firstn, Lt.
  unfold tag_of. rewrite (proj2_sig (poly1305 _ _)). unfold ts. lia.
Qed.

(** [Open] on an input of at least [tagsize] bytes whose tag does not
    match. *)
Lemma Open_rejects (c : aead) (d : slice) (nonce sealed ad : list Z) :
  length nonce = 12%nat -> handle_ok c = true ->
  tagsize c <= Z.of_nat (length sealed) ->
  let n := (length sealed - Z.to_nat (tagsize c))%nat in
  firstn (Z.to_nat (tagsize c))
         (tag_of poly1305 (key c) nonce ad (firstn n sealed))
    <> skipn n sealed ->
  Open cpuid supportAVX2 poly1305 c d nonce sealed ad
  = Ok ([], Some errAuthFailed).
Proof.
  intros Hn Hc Hlen n Hneq. apply handle_ok_range in Hc.
  unfold Open. rewrite Hn. cbn [Nat.eqb NonceSize negb].
  destruct (Z.ltb_spec (Z.of_nat (length sealed)) (tagsize c)); [lia|].
  rewrite copy_make by exact Hn.
  rewrite polyKey_derivation.
  replace (Z.to_nat (Z.of_nat (length sealed) - tagsize c)) with n
    by (unfold n; lia).
  rewrite authenticate_mac_data.
  fold (tag_of poly1305 (key c) nonce ad (firstn n sealed)).
  rewrite (firstn_all2 (n := Z.to_nat (tagsize c)) (skipn n sealed))
    by (rewrite length_skipn; unfold n; lia).
  now rewrite compare_rejects.
Qed.

(** [Open] on an input whose tag matches. *)
Lemma Open_accepts (c : aead) (d : slice) (nonce sealed ad : list Z) :
  length nonce = 12%nat -> handle_ok c = true ->
  tagsize c <= Z.of_nat (length sealed) ->
  let n := (length sealed - Z.to_nat (tagsize c))%nat in
  Forall byte_range (firstn n sealed) ->
  firstn (Z.to_nat (tagsize c))
         (tag_of poly1305 (key c) nonce ad (firstn n sealed))
    = skipn n sealed ->
  Open cpuid supportAVX2 poly1305 c d nonce sealed ad
  = Ok (elems d ++ encrypt (key c) nonce (firstn n sealed), None).
Proof.
  intros Hn Hc Hlen n Hb Heq. apply handle_ok_range in Hc.
  unfold Open. rewrite Hn. cbn [Nat.eqb NonceSize negb].
  destruct (Z.ltb_spec (Z.of_nat (length sealed)) (tagsize c)); [lia|].
  rewrite copy_make by exact Hn.
  rewrite polyKey_derivation.
  replace (Z.to_nat (Z.of_nat (length sealed) - tagsize c)) with n
    by (unfold n; lia).
  rewrite authenticate_mac_data.
  fold (tag_of poly1305 (key c) nonce ad (firstn n sealed)).
  rewrite (firstn_all2 (n := Z.to_nat (tagsize c)) (skipn n sealed))
    by (rewrite length_skipn; unfold n; lia).
  rewrite Heq, compare_accepts.
  destruct (sliceForAppend_shape d n) as (t & Lt & E). rewrite E.
  assert (Lc : length (firstn n sealed) = n)
    by (rewrite length_firstn; unfold n; lia).
  rewrite XORKeyStream_keystream;
    [ | rewrite Lc, Lt; lia | lia | reflexivity | exact Hb ].
  fold (encrypt (key c) nonce (firstn n sealed)).
  rewrite Lc, skipn_all2, app_nil_r by lia.
  now rewrite (firstn_exact (len d)) by reflexivity.
Qed.

End SealOpen.

End AEADFacts.

(** * The stream cipher: what the specification states *)

Module ChaChaTheorems.
Import Bytes BytesFacts ChaCha ChaChaFacts Keystream.

Local Opaque block_of.

(** C5.  For every key, 12-byte nonce and [src] of any length, with
    [len dst >= len src] and [rounds] positive and even, [XORKeyStream]
    writes [dst[i] = src[i] XOR keystream[i]] for exactly [len src] bytes
    and leaves the rest of [dst]: the full 64-byte blocks are those the
    dispatched block engine writes, block [i] with counter [counter + i],
    and the 0-63 leftover bytes are XORed with the prefix of exactly one
    more keystream block, of counter [counter + len src / 64]. *)
Theorem XORKeyStream_xors_keystream
  (cpuid supportAVX2 : Z) (dst src nonce key : list Z) (counter rounds : Z) :
  length nonce = 12%nat ->
  (length src <= length dst)%nat ->
  0 < rounds -> rounds mod 2 = 0 ->
  all_bytes src = true ->
  let L := length src in
  let q := (L / 64)%nat in
  let ks := keystream key nonce counter rounds (blocks_needed L) in
  XORKeyStream cpuid supportAVX2 dst src nonce key counter rounds
    = (xor_bytes src ks ++ skipn L dst, None)
  /\ length (xor_bytes src ks) = L
  /\ ks = keystream key nonce counter rounds q
            ++ (if (L mod 64 =? 0)%nat then []
                else block_of
                       (setState key nonce (add32 counter (Z.of_nat q)))
                       rounds)
  /\ firstn (64 * q) (xor_bytes src ks)
     = firstn (64 * q)
         (fst (xorBlocks cpuid supportAVX2 dst src
                         (setState key nonce counter) rounds)).
Proof.
  intros _ Hlen Hpos Heven Hsrc L q ks.
  apply all_bytes_Forall in Hsrc.
  assert (Hq : (64 * q <= L)%nat) by apply Nat.Div0.mul_div_le.
  assert (Hmod : (L mod 64 = L - 64 * q)%nat)
    by (unfold q; rewrite Nat.Div0.mod_eq; reflexivity).
  assert (Hks : ks = keystream key nonce counter rounds q
            ++ (if (L mod 64 =? 0)%nat then []
                else block_of
                       (setState key nonce (add32 counter (Z.of_nat q)))
                       rounds)).
  { unfold ks. destruct (Nat.eqb_spec (L mod 64) 0) as [E|E].
    - rewrite blocks_needed_exact by exact E. now rewrite app_nil_r.
    - rewrite blocks_needed_partial by exact E. apply keystream_snoc. }
  assert (Lks : (L <= length ks)%nat).
  { rewrite Hks, length_app, length_keystream.
    destruct (Nat.eqb_spec (L mod 64) 0) as [E|E]; cbn [length].
    - lia.
    - rewrite length_block_of.
      assert (L mod 64 < 64)%nat by (apply Nat.mod_upper_bound; lia). lia. }
  split; [now apply XORKeyStream_keystream|].
  split; [rewrite length_xor_bytes; fold L; lia|].
  split; [exact Hks|].
  rewrite xorBlocks_keystream by exact Hlen. cbn [fst]. fold L q.
  rewrite firstn_xor_bytes.
  rewrite (firstn_exact (64 * q)
             (xor_bytes (firstn (64 * q) src)
                        (keystream key nonce counter rounds q))).
  - f_equal. rewrite Hks. apply firstn_exact, length_keystream.
  - rewrite length_xor_bytes, length_firstn, length_keystream. fold L. lia.
Qed.

Lemma XORKeyStream_xors_keystream_witness :
  let src := map Z.of_nat (seq 0 67) in
  let ks := keystream Vector.key Vector.nonce 1 20 (blocks_needed 67) in
  length Vector.nonce = 12%nat
  /\ (length src <= length (make 70))%nat
  /\ 0 < 20 /\ 20 mod 2 = 0
  /\ all_bytes src = true
  /\ XORKeyStream 513 1 (make 70) src Vector.nonce Vector.key 1 20
     = (xor_bytes src ks ++ skipn 67 (make 70), None).
Proof.
  cbv zeta.
  split; [reflexivity|]. split; [vm_compute; lia|].
  split; [lia|]. split; [reflexivity|]. split; [reflexivity|].
  assert (H : (length (map Z.of_nat (seq 0 67)) <= length (make 70))%nat)
    by (vm_compute; lia).
  exact (proj1 (XORKeyStream_xors_keystream 513 1 (make 70)
                  (map Z.of_nat (seq 0 67)) Vector.nonce Vector.key 1 20
                  eq_refl H eq_refl eq_refl eq_refl)).
Defined.

(** C7, as stated, fails: with a destination that is too small and an
    odd round count, the first guard of [XORKeyStream] fires and the
    invalid-rounds error is not signalled. *)
Lemma XORKeyStream_short_dst_odd_rounds :
  let r := XORKeyStream 0 0 [] [7] Vector.nonce Vector.key 0 3 in
  (3 <= 0 \/ 3 mod 2 <> 0)
  /\ r = ([], Some "chacha20/chacha: dst buffer is to small"%string)
  /\ snd r <> Some "chacha20/chacha: rounds must be a multiple of 2"%string.
Proof.
  cbv zeta. split; [right; discriminate|].
  split; [reflexivity | vm_compute; discriminate].
Qed.

(** C7, amended.  [XORKeyStream] panics with the invalid-size message
    whenever [len dst < len src]; it panics with the invalid-rounds
    message whenever [dst] is large enough and [rounds] is not a positive
    even number; in both cases [dst] is as it was.  [NewCipher] panics on a
    non-positive or odd [rounds]. *)
Theorem XORKeyStream_guards
  (cpuid supportAVX2 : Z) (dst src nonce key : list Z) (counter rounds : Z) :
  ((length dst < length src)%nat ->
   XORKeyStream cpuid supportAVX2 dst src nonce key counter rounds
   = (dst, Some "chacha20/chacha: dst buffer is to small"%string))
  /\ ((length src <= length dst)%nat ->
      rounds <= 0 \/ rounds mod 2 <> 0 ->
      XORKeyStream cpuid supportAVX2 dst src nonce key counter rounds
      = (dst, Some "chacha20/chacha: rounds must be a multiple of 2"%string))
  /\ (rounds <= 0 \/ rounds mod 2 <> 0 ->
      NewCipher nonce key rounds
      = Panic "chacha20/chacha: rounds must be a multiply of 2"%string).
Proof.
  assert (G : rounds <= 0 \/ rounds mod 2 <> 0 ->
              (rounds <=? 0) || negb (Z.rem rounds 2 =? 0) = true).
  { intros [H|H].
    - destruct (Z.leb_spec rounds 0); [reflexivity | lia].
    - destruct (Z.leb_spec rounds 0); [reflexivity|].
      rewrite Z.rem_mod_nonneg by lia.
      destruct (Z.eqb_spec (rounds mod 2) 0); [contradiction | reflexivity]. }
  split; [|split].
  - intros H. unfold XORKeyStream.
    destruct (Nat.ltb_spec (length dst) (length src)); [reflexivity | lia].
  - intros H Hr. unfold XORKeyStream.
    destruct (Nat.ltb_spec (length dst) (length src)); [lia|].
    now rewrite (G Hr).
  - intros Hr. unfold NewCipher. now rewrite (G Hr).
Qed.

Lemma XORKeyStream_guards_witness :
  ((length [1; 2] < length [7; 8; 9])%nat
   /\ XORKeyStream 513 0 [1; 2] [7; 8; 9] Vector.nonce Vector.key 0 20
      = ([1; 2], Some "chacha20/chacha: dst buffer is to small"%string))
  /\ ((length [7; 8; 9] <= length [1; 2; 3])%nat
      /\ (7 <= 0 \/ 7 mod 2 <> 0)
      /\ XORKeyStream 513 0 [1; 2; 3] [7; 8; 9] Vector.nonce Vector.key 0 7
         = ([1; 2; 3],
            Some "chacha20/chacha: rounds must be a multiple of 2"%string))
  /\ ((-4 <= 0 \/ -4 mod 2 <> 0)
      /\ NewCipher Vector.nonce Vector.key (-4)
         = Panic "chacha20/chacha: rounds must be a multiply of 2"%string).
Proof.
  split; [|split].
  - split; [cbn; lia|].
    apply (XORKeyStream_guards 513 0 [1; 2] [7; 8; 9]
             Vector.nonce Vector.key 0 20). cbn; lia.
  - split; [cbn; lia|]. split; [right; discriminate|].
    apply (XORKeyStream_guards 513 0 [1; 2; 3] [7; 8; 9]
             Vector.nonce Vector.key 0 7); [cbn; lia | right; discriminate].
  - split; [left; lia|].
    apply (XORKeyStream_guards 0 0 [] [] Vector.nonce Vector.key 0 (-4)).
    left; lia.
Defined.

(** C9, as stated, fails: with AVX2 supported and 128 bytes to process,
    the dispatcher does not select the AVX2 engine. *)
Lemma xorBlocks_never_AVX2 :
  let supportAVX2 := 1 in
  let src := make 128 in
  supportAVX2 = 1 /\ (128 <= length src)%nat
  /\ xorBlocks_variant 513 supportAVX2 src = SSSE3
  /\ xorBlocks_variant 0 supportAVX2 src = SSE2
  /\ xorBlocks_variant 513 supportAVX2 src <> AVX2.
Proof.
  cbv zeta. split; [reflexivity|]. split; [vm_compute; lia|].
  split; [reflexivity|]. split; [reflexivity | discriminate].
Qed.

(** C9, amended.  For every capability set and every buffer the
    dispatcher selects, as a function of the capability set alone, the
    SSSE3 engine when SSE3 and SSSE3 are supported and the SSE2 baseline
    otherwise; the AVX2 engine is disabled and is never selected, whatever
    [supportAVX2] answers and however long the buffer is.  The baseline
    handles any buffer: it processes all its full blocks. *)
Theorem xorBlocks_selection
  (cpuid supportAVX2 : Z) (dst src state : list Z) (rounds : Z) :
  xorBlocks_variant cpuid supportAVX2 src
    = (if supportSSSE3 cpuid then SSSE3 else SSE2)
  /\ xorBlocks cpuid supportAVX2 dst src state rounds
     = (if supportSSSE3 cpuid
        then xorBlocksSSSE3 dst src state rounds
        else xorBlocksSSE2 dst src state rounds)
  /\ (forall key nonce counter,
        (64 <= length src)%nat -> (length src <= length dst)%nat ->
        let q := (length src / 64)%nat in
        xorBlocksSSE2 dst src (setState key nonce counter) rounds
        = (xor_bytes (firstn (64 * q) src)
                     (keystream key nonce counter rounds q)
             ++ skipn (64 * q) dst,
           setState key nonce (add32 counter (Z.of_nat q)))).
Proof.
  assert (V : xorBlocks_variant cpuid supportAVX2 src
              = (if supportSSSE3 cpuid then SSSE3 else SSE2)).
  { unfold xorBlocks_variant, useAVX2, useSSSE3.
    now rewrite andb_false_r. }
  split; [exact V|]. split.
  - rewrite xorBlocks_runs_variant, V. now destruct (supportSSSE3 cpuid).
  - intros key nonce counter _ Hlen q.
    pose proof (xorBlocks_keystream key nonce rounds 0 0 dst src counter Hlen)
      as K.
    cbv zeta in K.
    rewrite xorBlocks_runs_variant, xorBlocks_any_variant in K. exact K.
Qed.

Lemma xorBlocks_selection_witness :
  let src := map Z.of_nat (seq 0 130) in
  (64 <= length src)%nat /\ (length src <= length (make 130))%nat
  /\ xorBlocksSSE2 (make 130) src (setState Vector.key Vector.nonce 1) 20
     = (xor_bytes (firstn (64 * 2) src)
                  (keystream Vector.key Vector.nonce 1 20 2)
          ++ skipn (64 * 2) (make 130),
        setState Vector.key Vector.nonce (add32 1 (Z.of_nat 2))).
Proof.
  cbv zeta. split; [vm_compute; lia|]. split; [vm_compute; lia|].
  apply (xorBlocks_selection 0 1 (make 130) (map Z.of_nat (seq 0 130))
           [] 20); vm_compute; lia.
Defined.

End ChaChaTheorems.

(** * The AEAD construction: what the specification states *)

Module AEADTheorems.
Import Bytes BytesFacts ChaCha ChaChaFacts Keystream AEAD Construction.
Import AEADFacts.

Local Opaque block_of.

Section Statements.

Variables cpuid supportAVX2 : Z.
Variable poly1305 : list Z -> list Z -> tag16.

(** C1.  For every 32-byte key, 12-byte nonce, associated data, plaintext
    and tag size in 1..16, [Open] of what [Seal] appended, with the same
    nonce and associated data, succeeds and returns the plaintext (after
    the bytes of the destination it is given). *)
Theorem Seal_Open_roundtrip
  (c : aead) (d1 d2 : slice) (nonce plaintext ad : list Z) :
  length (key c) = 32%nat -> length nonce = 12%nat ->
  handle_ok c = true -> all_bytes plaintext = true ->
  exists sealed,
    Seal cpuid supportAVX2 poly1305 c d1 nonce plaintext ad
      = Ok (elems d1 ++ sealed)
    /\ Open cpuid supportAVX2 poly1305 c d2 nonce sealed ad
       = Ok (elems d2 ++ plaintext, None).
Proof.
  intros _ Hn Hc Hp. apply all_bytes_Forall in Hp.
  pose proof (handle_ok_range c Hc) as Hts.
  set (ct := encrypt (key c) nonce plaintext).
  set (ts := Z.to_nat (tagsize c)).
  set (tag := firstn ts (tag_of poly1305 (key c) nonce ad ct)).
  assert (Ltag : length tag = ts).
  { unfold tag, tag_of. rewrite length_firstn, (proj2_sig (poly1305 _ _)).
    unfold ts; lia. }
  assert (Lct : length ct = length plaintext) by apply length_encrypt.
  exists (ct ++ tag). split; [now apply Seal_sealed|].
  assert (En : (length (ct ++ tag) - ts)%nat = length ct)
    by (rewrite length_app; lia).
  rewrite Open_accepts; fold ts; rewrite ?En;
    rewrite ?(firstn_exact (length ct)), ?(skipn_exact (length ct))
      by reflexivity; auto.
  - unfold ct. now rewrite encrypt_involutive.
  - rewrite length_app. unfold ts in Ltag. lia.
  - now apply encrypt_range.
Qed.

(** C2.  For every key, 12-byte nonce, plaintext and associated data,
    [Seal] appends exactly the ciphertext, which is the plaintext XORed
    with the keystream that starts at block counter 1 with 20 rounds,
    followed by the first [tagsize] bytes of the computed tag: the sealed
    output is [len plaintext + tagsize] bytes long. *)
Theorem Seal_output
  (c : aead) (d : slice) (nonce plaintext ad : list Z) :
  length nonce = 12%nat ->
  handle_ok c = true -> all_bytes plaintext = true ->
  let ciphertext :=
    xor_bytes plaintext
      (keystream (key c) nonce 1 20 (blocks_needed (length plaintext))) in
  let tag :=
    authenticate poly1305 ciphertext ad
      (fst (XORKeyStream cpuid supportAVX2 (make 32) (make 32) nonce (key c)
                         0 20)) in
  exists r,
    Seal cpuid supportAVX2 poly1305 c d nonce plaintext ad = Ok r
    /\ skipn (len d) r = ciphertext ++ firstn (Z.to_nat (tagsize c)) tag
    /\ length ciphertext = length plaintext
    /\ Z.of_nat (length (skipn (len d) r))
       = Z.of_nat (length plaintext) + tagsize c.
Proof.
  intros Hn Hc Hp ciphertext tag. apply all_bytes_Forall in Hp.
  pose proof (handle_ok_range c Hc) as Hts.
  assert (Lct : length ciphertext = length plaintext)
    by apply length_encrypt.
  assert (Etag : tag = tag_of poly1305 (key c) nonce ad ciphertext).
  { unfold tag. rewrite polyKey_derivation. cbn [fst].
    apply authenticate_mac_data. }
  eexists. split; [now apply Seal_sealed|].
  rewrite (skipn_exact (len d)) by reflexivity.
  unfold encrypt. fold ciphertext. rewrite <- Etag.
  split; [reflexivity|]. split; [exact Lct|].
  rewrite length_app, length_firstn, Lct.
  unfold tag. rewrite length_authenticate. lia.
Qed.

(** C3.  In both [Seal] and [Open] the one-time MAC key is the encryption
    of 32 zero bytes with counter 0 under the given nonce and key, that is
    the first 32 bytes of the first keystream block, and the tag is the
    Poly1305 MAC, under that key, of exactly: the associated data, zeros up
    to the next multiple of 16 bytes, the ciphertext, zeros up to the next
    multiple of 16 bytes, the little-endian 64-bit length of the associated
    data and the little-endian 64-bit length of the ciphertext. *)
Theorem mac_key_and_input
  (c : aead) (d : slice) (nonce plaintext sealed ad : list Z) :
  length nonce = 12%nat -> handle_ok c = true ->
  all_bytes plaintext = true -> all_bytes sealed = true ->
  tagsize c <= Z.of_nat (length sealed) ->
  let polyKey :=
    fst (XORKeyStream cpuid supportAVX2 (make 32) (make 32) nonce (key c)
                      0 20) in
  let mac ct :=
    proj1_sig
      (poly1305 polyKey
         (ad ++ pad16 ad ++ ct ++ pad16 ct
             ++ le_bytes 8 (Z.of_nat (length ad))
             ++ le_bytes 8 (Z.of_nat (length ct)))) in
  let ts := Z.to_nat (tagsize c) in
  let n := (length sealed - ts)%nat in
  polyKey = firstn 32 (block_of (setState (key c) nonce 0) 20)
  /\ (forall x, (length (x ++ pad16 x) mod 16 = 0)%nat
                /\ (length (pad16 x) < 16)%nat
                /\ pad16 x = repeat 0 (length (pad16 x)))
  /\ (forall ct, authenticate poly1305 ct ad polyKey = mac ct)
  /\ Seal cpuid supportAVX2 poly1305 c d nonce plaintext ad
     = Ok (elems d ++ encrypt (key c) nonce plaintext
             ++ firstn ts (mac (encrypt (key c) nonce plaintext)))
  /\ Open cpuid supportAVX2 poly1305 c d nonce sealed ad
     = (if list_eq_dec Z.eq_dec (firstn ts (mac (firstn n sealed)))
                       (skipn n sealed)
        then Ok (elems d ++ encrypt (key c) nonce (firstn n sealed), None)
        else Ok ([], Some errAuthFailed)).
Proof.
  intros Hn Hc Hp Hs Hlen polyKey mac ts n.
  apply all_bytes_Forall in Hp. apply all_bytes_Forall in Hs.
  assert (Ek : polyKey = poly_key (key c) nonce)
    by (unfold polyKey; now rewrite polyKey_derivation).
  assert (Em : forall ct, mac ct = tag_of poly1305 (key c) nonce ad ct)
    by (intros ct; unfold mac, tag_of, mac_data; now rewrite Ek).
  split; [exact Ek|]. split; [|split; [|split]].
  - intros x. destruct (pad16_boundary x) as [B1 B2].
    split; [exact B1|]. split; [exact B2|].
    unfold pad16. now rewrite length_make.
  - intros ct. rewrite Em, Ek. apply authenticate_mac_data.
  - rewrite Em. now apply Seal_sealed.
  - rewrite Em.
    destruct (list_eq_dec Z.eq_dec
                (firstn ts (tag_of poly1305 (key c) nonce ad (firstn n sealed)))
                (skipn n sealed)) as [E|E].
    + apply Open_accepts; auto. now apply Forall_firstn.
    + now apply Open_rejects.
Qed.

(** C4.  For every 12-byte nonce and associated data, when the sealed
    input is shorter than [tagsize], or when the first [tagsize] bytes of
    the recomputed tag differ from the received tag, [Open] returns the one
    error [errAuthFailed], the same in both cases, and the nil slice: no
    plaintext. *)
Theorem Open_authentication_failed
  (c : aead) (d : slice) (nonce sealed ad : list Z) :
  length nonce = 12%nat -> handle_ok c = true ->
  let ts := Z.to_nat (tagsize c) in
  let n := (length sealed - ts)%nat in
  Z.of_nat (length sealed) < tagsize c
  \/ (tagsize c <= Z.of_nat (length sealed)
      /\ firstn ts (authenticate poly1305 (firstn n sealed) ad
                      (fst (XORKeyStream cpuid supportAVX2 (make 32)
                              (make 32) nonce (key c) 0 20)))
         <> skipn n sealed) ->
  Open cpuid supportAVX2 poly1305 c d nonce sealed ad
  = Ok ([], Some errAuthFailed).
Proof.
  intros Hn Hc ts n [Hshort|[Hlen Hneq]].
  - unfold Open. rewrite Hn. cbn [Nat.eqb NonceSize negb].
    destruct (Z.ltb_spec (Z.of_nat (length sealed)) (tagsize c));
      [reflexivity | lia].
  - apply Open_rejects; auto. fold ts n.
    rewrite polyKey_derivation, authenticate_mac_data in Hneq. exact Hneq.
Qed.

(** C6.  For every nonce whose length is not 12, [Seal] panics with the
    invalid-nonce-size message and [Open] returns [errInvalidNonceSize] and
    the nil slice, whatever the other arguments are: also when the input
    is shorter than the tag, and without any use of the cipher or of the
    MAC. *)
Theorem invalid_nonce_size
  (c : aead) (d : slice) (nonce text ad : list Z) :
  length nonce <> 12%nat ->
  Seal cpuid supportAVX2 poly1305 c d nonce text ad
    = Panic "chacha20: nonce size is invalid"%string
  /\ Open cpuid supportAVX2 poly1305 c d nonce text ad
     = Ok ([], Some errInvalidNonceSize).
Proof.
  intros H. unfold Seal, Open, NonceSize.
  destruct (Nat.eqb_spec (length nonce) 12) as [E|_]; [contradiction|].
  split; reflexivity.
Qed.

(** C8.  [Seal] is deterministic: for fixed key, tag size, nonce,
    plaintext and associated data, two invocations append the same bytes
    (or panic alike), whatever the destination slices, the contents of
    their spare capacity and the capabilities of the processor are. *)
Theorem Seal_deterministic
  (cpuid' supportAVX2' : Z) (c : aead) (d1 d2 : slice)
  (nonce plaintext ad : list Z) :
  handle_ok c = true -> all_bytes plaintext = true ->
  appended (len d1)
    (Seal cpuid supportAVX2 poly1305 c d1 nonce plaintext ad)
  = appended (len d2)
      (Seal cpuid' supportAVX2' poly1305 c d2 nonce plaintext ad).
Proof.
  intros Hc Hp. apply all_bytes_Forall in Hp.
  destruct (Nat.eq_dec (length nonce) 12) as [Hn|Hn].
  - rewrite !Seal_sealed by auto. cbn [appended].
    now rewrite !(skipn_exact (len _)) by reflexivity.
  - unfold Seal, NonceSize.
    destruct (Nat.eqb_spec (length nonce) 12) as [E|_]; [contradiction|].
    reflexivity.
Qed.

(** C10.  [Seal] appends to [dst]: the slice it returns is the contents of
    [dst] followed by the ciphertext and the tag, so its first [len dst]
    bytes are those of [dst] and its length is
    [len dst + len plaintext + tagsize]. *)
Theorem Seal_appends
  (c : aead) (d : slice) (nonce plaintext ad : list Z) :
  length nonce = 12%nat ->
  handle_ok c = true -> all_bytes plaintext = true ->
  exists ciphertext tag,
    Seal cpuid supportAVX2 poly1305 c d nonce plaintext ad
      = Ok (elems d ++ ciphertext ++ tag)
    /\ firstn (len d) (elems d ++ ciphertext ++ tag) = elems d
    /\ length ciphertext = length plaintext
    /\ Z.of_nat (length tag) = tagsize c
    /\ Z.of_nat (length (elems d ++ ciphertext ++ tag))
       = Z.of_nat (len d) + Z.of_nat (length plaintext) + tagsize c.
Proof.
  intros Hn Hc Hp. apply all_bytes_Forall in Hp.
  pose proof (handle_ok_range c Hc) as Hts.
  set (ct := encrypt (key c) nonce plaintext).
  set (tag := firstn (Z.to_nat (tagsize c))
                     (tag_of poly1305 (key c) nonce ad ct)).
  assert (Ltag : Z.of_nat (length tag) = tagsize c).
  { unfold tag, tag_of. rewrite length_firstn, (proj2_sig (poly1305 _ _)).
    lia. }
  assert (Lct : length ct = length plaintext) by apply length_encrypt.
  exists ct, tag. split; [now apply Seal_sealed|].
  split; [now apply firstn_exact|]. split; [exact Lct|].
  split; [exact Ltag|].
  rewrite !length_app, Lct. unfold len. lia.
Qed.

End Statements.

(** *** The theorems on the test vector of RFC 7539 *)

Lemma Seal_Open_roundtrip_witness :
  let c := NewChaCha20Poly1305 Vector.key in
  length (key c) = 32%nat /\ length Vector.nonce = 12%nat
  /\ handle_ok c = true /\ all_bytes Vector.plaintext = true
  /\ exists sealed,
       Seal 513 1 Vector.poly1305 c Vector.dst Vector.nonce
            Vector.plaintext Vector.ad
         = Ok (elems Vector.dst ++ sealed)
       /\ Open 513 1 Vector.poly1305 c nil_slice Vector.nonce sealed
               Vector.ad
          = Ok (elems nil_slice ++ Vector.plaintext, None).
Proof.
  cbv zeta. split; [reflexivity|]. split; [reflexivity|].
  split; [reflexivity|]. split; [reflexivity|].
  apply (Seal_Open_roundtrip 513 1 Vector.poly1305
           (NewChaCha20Poly1305 Vector.key) Vector.dst nil_slice
           Vector.nonce Vector.plaintext Vector.ad); reflexivity.
Defined.

Lemma Seal_output_witness :
  length Vector.nonce = 12%nat
  /\ handle_ok Vector.short_tag = true
  /\ all_bytes Vector.plaintext = true
  /\ exists r,
       Seal 0 0 Vector.poly1305 Vector.short_tag Vector.dst Vector.nonce
            Vector.plaintext Vector.ad = Ok r
       /\ Z.of_nat (length (skipn (len Vector.dst) r))
          = Z.of_nat (length Vector.plaintext) + tagsize Vector.short_tag.
Proof.
  split; [reflexivity|]. split; [reflexivity|]. split; [reflexivity|].
  destruct (Seal_output 0 0 Vector.poly1305 Vector.short_tag Vector.dst
              Vector.nonce Vector.plaintext Vector.ad
              eq_refl eq_refl eq_refl) as (r & E & _ & _ & L).
  exists r. split; [exact E | exact L].
Defined.

Lemma mac_key_and_input_witness :
  let c := NewChaCha20Poly1305 Vector.key in
  length Vector.nonce = 12%nat /\ handle_ok c = true
  /\ all_bytes Vector.plaintext = true /\ all_bytes Vector.sealed = true
  /\ tagsize c <= Z.of_nat (length Vector.sealed)
  /\ fst (XORKeyStream 513 1 (make 32) (make 32) Vector.nonce (key c) 0 20)
     = firstn 32 (block_of (setState (key c) Vector.nonce 0) 20).
Proof.
  cbv zeta.
  assert (H : tagsize (NewChaCha20Poly1305 Vector.key)
              <= Z.of_nat (length Vector.sealed))
    by (vm_compute; discriminate).
  split; [reflexivity|]. split; [reflexivity|].
  split; [reflexivity|]. split; [reflexivity|]. split; [exact H|].
  exact (proj1 (mac_key_and_input 513 1 Vector.poly1305
                  (NewChaCha20Poly1305 Vector.key) Vector.dst Vector.nonce
                  Vector.plaintext Vector.sealed Vector.ad
                  eq_refl eq_refl eq_refl eq_refl H)).
Defined.

Lemma Open_authentication_failed_witness :
  let c := NewChaCha20Poly1305 Vector.key in
  let forged := firstn 129 Vector.sealed ++ [144] in
  let n := (length forged - Z.to_nat (tagsize c))%nat in
  length Vector.nonce = 12%nat /\ handle_ok c = true
  /\ (tagsize c <= Z.of_nat (length forged)
      /\ firstn (Z.to_nat (tagsize c))
           (authenticate Vector.poly1305 (firstn n forged) Vector.ad
              (fst (XORKeyStream 513 1 (make 32) (make 32) Vector.nonce
                      (key c) 0 20)))
         <> skipn n forged)
  /\ Open 513 1 Vector.poly1305 c Vector.dst Vector.nonce forged Vector.ad
     = Ok ([], Some errAuthFailed).
Proof.
  cbv zeta.
  assert (H : tagsize (NewChaCha20Poly1305 Vector.key)
              <= Z.of_nat (length (firstn 129 Vector.sealed ++ [144]))
      /\ firstn (Z.to_nat (tagsize (NewChaCha20Poly1305 Vector.key)))
           (authenticate Vector.poly1305
              (firstn
                 (length (firstn 129 Vector.sealed ++ [144])
                  - Z.to_nat (tagsize (NewChaCha20Poly1305 Vector.key)))
                 (firstn 129 Vector.sealed ++ [144]))
              Vector.ad
              (fst (XORKeyStream 513 1 (make 32) (make 32) Vector.nonce
                      (key (NewChaCha20Poly1305 Vector.key)) 0 20)))
         <> skipn
              (length (firstn 129 Vector.sealed ++ [144])
               - Z.to_nat (tagsize (NewChaCha20Poly1305 Vector.key)))
              (firstn 129 Vector.sealed ++ [144])).
  { split; vm_compute; discriminate. }
  split; [reflexivity|]. split; [reflexivity|]. split; [exact H|].
  apply (Open_authentication_failed 513 1 Vector.poly1305
           (NewChaCha20Poly1305 Vector.key) Vector.dst Vector.nonce
           (firstn 129 Vector.sealed ++ [144]) Vector.ad eq_refl eq_refl).
  right. exact H.
Defined.

Lemma invalid_nonce_size_witness :
  length [1; 2; 3] <> 12%nat
  /\ Seal 513 1 Vector.poly1305 Vector.short_tag Vector.dst [1; 2; 3]
          Vector.plaintext Vector.ad
     = Panic "chacha20: nonce size is invalid"%string
  /\ Open 513 1 Vector.poly1305 Vector.short_tag Vector.dst [1; 2; 3]
          [5] Vector.ad
     = Ok ([], Some errInvalidNonceSize).
Proof.
  assert (H : length [1; 2; 3] <> 12%nat) by (vm_compute; discriminate).
  split; [exact H|]. split.
  - apply (invalid_nonce_size 513 1 Vector.poly1305 Vector.short_tag
             Vector.dst [1; 2; 3] Vector.plaintext Vector.ad H).
  - apply (invalid_nonce_size 513 1 Vector.poly1305 Vector.short_tag
             Vector.dst [1; 2; 3] [5] Vector.ad H).
Defined.

Lemma Seal_deterministic_witness :
  handle_ok Vector.short_tag = true
  /\ all_bytes Vector.plaintext = true
  /\ appended (len Vector.dst)
       (Seal 513 1 Vector.poly1305 Vector.short_tag Vector.dst
             Vector.nonce Vector.plaintext Vector.ad)
     = appended (len nil_slice)
         (Seal 0 0 Vector.poly1305 Vector.short_tag nil_slice
               Vector.nonce Vector.plaintext Vector.ad).
Proof.
  split; [reflexivity|]. split; [reflexivity|].
  apply (Seal_deterministic 513 1 Vector.poly1305 0 0 Vector.short_tag
           Vector.dst nil_slice Vector.nonce Vector.plaintext Vector.ad);
    reflexivity.
Defined.

Lemma Seal_appends_witness :
  length Vector.nonce = 12%nat
  /\ handle_ok Vector.short_tag = true
  /\ all_bytes Vector.plaintext = true
  /\ exists ciphertext tag,
       Seal 513 1 Vector.poly1305 Vector.short_tag Vector.dst Vector.nonce
            Vector.plaintext Vector.ad
         = Ok (elems Vector.dst ++ ciphertext ++ tag)
       /\ firstn (len Vector.dst) (elems Vector.dst ++ ciphertext ++ tag)
          = elems Vector.dst.
Proof.
  split; [reflexivity|]. split; [reflexivity|]. split; [reflexivity|].
  destruct (Seal_appends 513 1 Vector.poly1305 Vector.short_tag Vector.dst
              Vector.nonce Vector.plaintext Vector.ad
              eq_refl eq_refl eq_refl) as (ct & tag & E & F & _).
  exists ct, tag. split; [exact E | exact F].
Defined.

(** *** Known answers

    The model of the assembly routines and of the construction reproduces
    the published vectors: the block function of RFC 7539, section 2.3.2,
    and the AEAD of section 2.8.2. *)

Example rfc7539_block :
  firstn 16
    (fst (Core 513
            (setState (map Z.of_nat (seq 0 32))
                      [0; 0; 0; 9; 0; 0; 0; 74; 0; 0; 0; 0] 1) 20))
  = [16; 241; 231; 228; 209; 59; 89; 21; 80; 15; 221; 31; 163; 32; 113; 196].
Proof. vm_compute. reflexivity. Qed.

Example rfc7539_seal :
  Seal 513 1 Vector.poly1305 (NewChaCha20Poly1305 Vector.key) nil_slice
       Vector.nonce Vector.plaintext Vector.ad
  = Ok Vector.sealed.
Proof. vm_compute. reflexivity. Qed.

Example rfc7539_open :
  Open 0 0 Vector.poly1305 (NewChaCha20Poly1305 Vector.key) nil_slice
       Vector.nonce Vector.sealed Vector.ad
  = Ok (Vector.plaintext, None).
Proof. vm_compute. reflexivity. Qed.

End AEADTheorems.

(** * More of the stream cipher *)

Module ChaChaMore.
Import Bytes BytesFacts ChaCha ChaChaFacts Keystream.

Local Opaque block_of.

(** ** Lemmas *)

Lemma nth_xor_bytes_at (i : nat) (a b : list Z) :
  (i < length a)%nat -> (i < length b)%nat ->
  nth i (xor_bytes a b) 0 = Z.lxor (nth i a 0) (nth i b 0).
Proof.
  revert a b; induction i as [|i IH]; intros [|x a] [|y b] Ha Hb;
    cbn [length] in *; try lia; cbn [xor_bytes nth].
  - reflexivity.
  - apply IH; lia.
Qed.

Lemma keystream_counter_mod (key nonce : list Z) (rounds c : Z) (n : nat) :
  keystream key nonce (add32 c 0) rounds n = keystream key nonce c rounds n.
Proof.
  unfold keystream. apply flat_map_ext; intros i.
  now rewrite add32_add32, Z.add_0_l.
Qed.

Lemma keystream_app (key nonce : list Z) (rounds c : Z) (a b : nat) :
  keystream key nonce c rounds (a + b)
  = keystream key nonce c rounds a
      ++ keystream key nonce (add32 c (Z.of_nat a)) rounds b.
Proof.
  revert c; induction a as [|a IH]; intros c.
  - cbn [Nat.add]. change (Z.of_nat 0) with 0.
    now rewrite keystream_counter_mod.
  - cbn [Nat.add]. rewrite !keystream_S, IH, <- app_assoc.
    rewrite add32_add32.
    now replace (1 + Z.of_nat a) with (Z.of_nat (S a)) by lia.
Qed.

Lemma keystream_prefix (key nonce : list Z) (rounds c : Z) (a b : nat) :
  (a <= b)%nat ->
  keystream key nonce c rounds a
  = firstn (64 * a) (keystream key nonce c rounds b).
Proof.
  intros H. replace b with (a + (b - a))%nat by lia.
  rewrite keystream_app. symmetry. apply firstn_exact, length_keystream.
Qed.

Lemma blocks_needed_add (m l : nat) :
  blocks_needed (64 * m + l) = (m + blocks_needed l)%nat.
Proof.
  unfold blocks_needed.
  replace (64 * m + l)%nat with (l + m * 64)%nat by lia.
  rewrite Nat.div_add, Nat.Div0.mod_add by lia. lia.
Qed.

Lemma blocks_needed_covers (l : nat) : (l <= 64 * blocks_needed l)%nat.
Proof.
  unfold blocks_needed.
  pose proof (Nat.div_mod_eq l 64) as D.
  assert (B : (l mod 64 < 64)%nat) by (apply Nat.mod_upper_bound; lia).
  destruct (Nat.eqb_spec (l mod 64) 0); lia.
Qed.

Lemma blocks_needed_mono (m l : nat) :
  (m <= l)%nat -> (blocks_needed m <= blocks_needed l)%nat.
Proof.
  intros H. unfold blocks_needed.
  pose proof (Nat.div_mod_eq m 64) as Dm.
  pose proof (Nat.div_mod_eq l 64) as Dl.
  assert (Bm : (m mod 64 < 64)%nat) by (apply Nat.mod_upper_bound; lia).
  assert (Bl : (l mod 64 < 64)%nat) by (apply Nat.mod_upper_bound; lia).
  assert (Q : (m / 64 <= l / 64)%nat) by (apply Nat.Div0.div_le_mono; lia).
  destruct (Nat.eqb_spec (m mod 64) 0), (Nat.eqb_spec (l mod 64) 0); lia.
Qed.

(** ** Theorems *)

(** X1.  [xor] XORs as many bytes as the shorter of [src] and [with] has,
    byte by byte, returns that number, and leaves the other bytes of [dst]
    as they were; the loop over 64-bit words and the loop over the last
    bytes together do what a single loop over the bytes would do. *)
Theorem xor_bytes_written (dst src with_ : list Z) :
  all_bytes src = true -> all_bytes with_ = true ->
  (Nat.min (length src) (length with_) <= length dst)%nat ->
  let n := Nat.min (length src) (length with_) in
  let out := fst (xor dst src with_) in
  snd (xor dst src with_) = n
  /\ length out = length dst
  /\ (forall i, (i < n)%nat ->
        nth i out 0 = Z.lxor (nth i src 0) (nth i with_ 0))
  /\ (forall i, (n <= i)%nat -> nth i out 0 = nth i dst 0).
Proof.
  intros Hs Hw Hroom n out.
  apply all_bytes_Forall in Hs. apply all_bytes_Forall in Hw.
  assert (E : xor dst src with_ = (xor_bytes src with_ ++ skipn n dst, n))
    by now apply xor_bytewise.
  assert (Lx : length (xor_bytes src with_) = n) by apply length_xor_bytes.
  unfold out. rewrite E. cbn [fst snd].
  split; [reflexivity|]. split; [|split].
  - rewrite length_app, length_skipn, Lx. unfold n in *; lia.
  - intros i Hi. rewrite app_nth1 by lia.
    apply nth_xor_bytes_at; unfold n in Hi; lia.
  - intros i Hi. rewrite app_nth2 by lia. rewrite Lx.
    rewrite nth_skipn. f_equal. lia.
Qed.

Lemma xor_bytes_written_witness :
  let dst := [9; 9; 9; 9; 9; 9; 9; 9; 9; 9; 9; 9] in
  let src := [1; 2; 3; 4; 5; 6; 7; 8; 9; 10; 11] in
  let with_ := [255; 254; 253; 252; 251; 250; 249; 248; 247; 246] in
  all_bytes src = true /\ all_bytes with_ = true
  /\ (Nat.min (length src) (length with_) <= length dst)%nat
  /\ snd (xor dst src with_) = Nat.min (length src) (length with_).
Proof.
  cbv zeta.
  assert (H : (Nat.min (length [1; 2; 3; 4; 5; 6; 7; 8; 9; 10; 11])
                 (length [255; 254; 253; 252; 251; 250; 249; 248; 247; 246])
               <= length [9; 9; 9; 9; 9; 9; 9; 9; 9; 9; 9; 9])%nat)
    by (vm_compute; lia).
  split; [reflexivity|]. split; [reflexivity|]. split; [exact H|].
  exact (proj1 (xor_bytes_written
                  [9; 9; 9; 9; 9; 9; 9; 9; 9; 9; 9; 9]
                  [1; 2; 3; 4; 5; 6; 7; 8; 9; 10; 11]
                  [255; 254; 253; 252; 251; 250; 249; 248; 247; 246]
                  eq_refl eq_refl H)).
Defined.

Section Stream.

Variables cpuid supportAVX2 cpuid' supportAVX2' : Z.
Variables nonce key : list Z.
Variables counter rounds : Z.

(** X2.  [XORKeyStream] undoes itself: applied, with the same key, nonce,
    counter and rounds, to what it wrote for [src], it writes [src] again,
    on whichever engine each of the two calls runs. *)
Theorem XORKeyStream_involutive (dst dst' src : list Z) :
  length dst = length src -> length dst' = length src ->
  0 < rounds -> rounds mod 2 = 0 ->
  all_bytes src = true ->
  XORKeyStream cpuid' supportAVX2' dst'
    (fst (XORKeyStream cpuid supportAVX2 dst src nonce key counter rounds))
    nonce key counter rounds
  = (src, None).
Proof.
  intros Hd Hd' Hpos Heven Hs. apply all_bytes_Forall in Hs.
  rewrite (XORKeyStream_keystream key nonce rounds cpuid supportAVX2)
    by (auto; lia).
  cbn [fst]. rewrite <- Hd, skipn_all, app_nil_r. rewrite Hd.
  set (ks := keystream key nonce counter rounds (blocks_needed (length src))).
  assert (Lks : (length src <= length ks)%nat).
  { unfold ks. rewrite length_keystream. apply blocks_needed_covers. }
  assert (Lc : length (xor_bytes src ks) = length src)
    by (rewrite length_xor_bytes; lia).
  rewrite XORKeyStream_keystream;
    [ | rewrite Lc; lia | assumption | assumption
      | apply xor_bytes_range; auto; apply keystream_range ].
  rewrite Lc. fold ks.
  rewrite xor_bytes_involutive by exact Lks.
  now rewrite <- Hd', skipn_all, app_nil_r.
Qed.

(** X3.  Counter continuation: for [a] a whole number [m] of 64-byte
    blocks, encrypting [a ++ b] from counter [c] is encrypting [a] from
    [c] and [b] from [c + m] modulo [2^32]. *)
Theorem XORKeyStream_continues (m : nat) (d da db a b : list Z) :
  length a = (64 * m)%nat ->
  length d = length (a ++ b) -> length da = length a ->
  length db = length b ->
  0 < rounds -> rounds mod 2 = 0 ->
  all_bytes a = true -> all_bytes b = true ->
  fst (XORKeyStream cpuid supportAVX2 d (a ++ b) nonce key counter rounds)
  = fst (XORKeyStream cpuid supportAVX2 da a nonce key counter rounds)
      ++ fst (XORKeyStream cpuid supportAVX2 db b nonce key
                (add32 counter (Z.of_nat m)) rounds).
Proof.
  intros La Ld Lda Ldb Hpos Heven Ha Hb.
  apply all_bytes_Forall in Ha. apply all_bytes_Forall in Hb.
  rewrite !(XORKeyStream_keystream key nonce rounds cpuid supportAVX2);
    auto; try lia; [| apply Forall_app; split; assumption].
  cbn [fst].
  rewrite <- Ld, <- Lda, <- Ldb, !skipn_all, !app_nil_r.
  rewrite Ld, Lda, Ldb, length_app, La.
  rewrite blocks_needed_add, keystream_app.
  replace (blocks_needed (64 * m)) with m
    by (rewrite <- (Nat.add_0_r (64 * m)), blocks_needed_add;
        cbn; lia).
  apply xor_bytes_app. now rewrite length_keystream.
Qed.

(** X4.  The ciphertext of a prefix is the prefix of the ciphertext. *)
Theorem XORKeyStream_prefix (m : nat) (dst dst' src : list Z) :
  (m <= length src)%nat ->
  length dst = length src -> length dst' = m ->
  0 < rounds -> rounds mod 2 = 0 ->
  all_bytes src = true ->
  fst (XORKeyStream cpuid supportAVX2 dst' (firstn m src) nonce key
         counter rounds)
  = firstn m
      (fst (XORKeyStream cpuid supportAVX2 dst src nonce key counter
              rounds)).
Proof.
  intros Hm Hd Hd' Hpos Heven Hs. apply all_bytes_Forall in Hs.
  assert (Lf : length (firstn m src) = m)
    by (rewrite length_firstn; lia).
  rewrite !(XORKeyStream_keystream key nonce rounds cpuid supportAVX2);
    auto; try lia; [| now apply Forall_firstn].
  cbn [fst]. rewrite Lf.
  rewrite (skipn_all2 dst'), (skipn_all2 dst), !app_nil_r by lia.
  rewrite firstn_xor_bytes.
  set (ksm := keystream key nonce counter rounds (blocks_needed m)).
  set (ksl := keystream key nonce counter rounds
                (blocks_needed (length src))).
  rewrite <- (xor_bytes_firstn_r (firstn m src) ksm).
  rewrite <- (xor_bytes_firstn_r (firstn m src) (firstn m ksl)).
  f_equal. rewrite Lf. unfold ksm.
  rewrite (keystream_prefix key nonce rounds counter
             (blocks_needed m) (blocks_needed (length src)))
    by now apply blocks_needed_mono.
  fold ksl. rewrite !firstn_firstn.
  pose proof (blocks_needed_covers m).
  f_equal. lia.
Qed.

End Stream.

Lemma XORKeyStream_involutive_witness :
  let src := map Z.of_nat (seq 0 200) in
  length (make 200) = length src /\ length (make 200) = length src
  /\ 0 < 8 /\ 8 mod 2 = 0 /\ all_bytes src = true
  /\ XORKeyStream 0 0 (make 200)
       (fst (XORKeyStream 513 1 (make 200) src Vector.nonce Vector.key 7 8))
       Vector.nonce Vector.key 7 8
     = (src, None).
Proof.
  cbv zeta.
  assert (H : length (make 200) = length (map Z.of_nat (seq 0 200)))
    by (vm_compute; reflexivity).
  split; [exact H|]. split; [exact H|]. split; [lia|].
  split; [reflexivity|]. split; [reflexivity|].
  exact (XORKeyStream_involutive 513 1 0 0 Vector.nonce Vector.key 7 8
           (make 200) (make 200) (map Z.of_nat (seq 0 200))
           H H eq_refl eq_refl eq_refl).
Defined.

Lemma XORKeyStream_continues_witness :
  let a := map Z.of_nat (seq 0 128) in
  let b := map Z.of_nat (seq 100 70) in
  length a = (64 * 2)%nat
  /\ length (make 198) = length (a ++ b)
  /\ length (make 128) = length a /\ length (make 70) = length b
  /\ 0 < 20 /\ 20 mod 2 = 0
  /\ all_bytes a = true /\ all_bytes b = true
  /\ fst (XORKeyStream 513 1 (make 198) (a ++ b) Vector.nonce Vector.key
            4294967295 20)
     = fst (XORKeyStream 513 1 (make 128) a Vector.nonce Vector.key
              4294967295 20)
         ++ fst (XORKeyStream 513 1 (make 70) b Vector.nonce Vector.key
                   (add32 4294967295 (Z.of_nat 2)) 20).
Proof.
  cbv zeta.
  assert (H1 : length (map Z.of_nat (seq 0 128)) = (64 * 2)%nat)
    by (vm_compute; reflexivity).
  assert (H2 : length (make 198)
               = length (map Z.of_nat (seq 0 128)
                           ++ map Z.of_nat (seq 100 70)))
    by (vm_compute; reflexivity).
  assert (H3 : length (make 128) = length (map Z.of_nat (seq 0 128)))
    by (vm_compute; reflexivity).
  assert (H4 : length (make 70) = length (map Z.of_nat (seq 100 70)))
    by (vm_compute; reflexivity).
  split; [exact H1|]. split; [exact H2|]. split; [exact H3|].
  split; [exact H4|]. split; [lia|]. split; [reflexivity|].
  split; [reflexivity|]. split; [reflexivity|].
  exact (XORKeyStream_continues 513 1 Vector.nonce Vector.key
           4294967295 20 2 (make 198) (make 128) (make 70)
           (map Z.of_nat (seq 0 128)) (map Z.of_nat (seq 100 70))
           H1 H2 H3 H4 eq_refl eq_refl eq_refl eq_refl).
Defined.

Lemma XORKeyStream_prefix_witness :
  let src := map Z.of_nat (seq 0 150) in
  (70 <= length src)%nat
  /\ length (make 150) = length src /\ length (make 70) = 70%nat
  /\ 0 < 12 /\ 12 mod 2 = 0 /\ all_bytes src = true
  /\ fst (XORKeyStream 0 0 (make 70) (firstn 70 src) Vector.nonce
            Vector.key 3 12)
     = firstn 70
         (fst (XORKeyStream 0 0 (make 150) src Vector.nonce Vector.key
                 3 12)).
Proof.
  cbv zeta.
  assert (H1 : (70 <= length (map Z.of_nat (seq 0 150)))%nat)
    by (vm_compute; lia).
  assert (H2 : length (make 150) = length (map Z.of_nat (seq 0 150)))
    by (vm_compute; reflexivity).
  assert (H3 : length (make 70) = 70%nat) by (vm_compute; reflexivity).
  split; [exact H1|]. split; [exact H2|]. split; [exact H3|].
  split; [lia|]. split; [reflexivity|]. split; [reflexivity|].
  exact (XORKeyStream_prefix 0 0 Vector.nonce Vector.key 3 12 70
           (make 150) (make 70) (map Z.of_nat (seq 0 150))
           H1 H2 H3 eq_refl eq_refl eq_refl).
Defined.

(** ** The capability test and the cipher handle *)




(** X12.  For a positive even [rounds], [NewCipher] returns a handle that
    keeps [rounds] and starts at block counter 0: the first block that
    [Core] generates from its state is the keystream that [XORKeyStream]
    uses at counter 0, and [Core] leaves the state at counter 1. *)
Theorem NewCipher_first_block
  (cpuid cpuid' supportAVX2 : Z) (nonce key : list Z) (rounds : Z) :
  0 < rounds -> rounds mod 2 = 0 ->
  exists c,
    NewCipher nonce key rounds = Ok c
    /\ rounds_of c = rounds
    /\ Core cpuid (state_of c) (rounds_of c)
       = (fst (XORKeyStream cpuid' supportAVX2 (make 64) (make 64)
                 nonce key 0 rounds),
          setState key nonce 1).
Proof.
  intros Hpos Heven. unfold NewCipher. rewrite rounds_guard by assumption.
  eexists. split; [reflexivity|]. cbn [rounds_of state_of].
  split; [reflexivity|].
  rewrite Core_block. change (add32 0 1) with 1.
  rewrite (XORKeyStream_keystream key nonce rounds cpuid' supportAVX2);
    [ | rewrite !AEADFacts.length_make; lia | assumption | assumption
      | apply AEADFacts.make_range ].
  cbn [fst]. rewrite AEADFacts.length_make.
  change (blocks_needed 64) with 1%nat.
  rewrite keystream_S. unfold keystream at 1. cbn [seq flat_map].
  rewrite AEADFacts.xor_bytes_zeros, ?app_nil_r.
  rewrite ?skipn_all2 by (rewrite AEADFacts.length_make; lia).
  rewrite ?app_nil_r.
  rewrite firstn_all2 by (rewrite length_block_of; lia).
  reflexivity.
Qed.

Lemma NewCipher_first_block_witness :
  0 < 20 /\ 20 mod 2 = 0
  /\ exists c,
       NewCipher Vector.nonce Vector.key 20 = Ok c
       /\ rounds_of c = 20
       /\ Core 513 (state_of c) (rounds_of c)
          = (fst (XORKeyStream 0 1 (make 64) (make 64) Vector.nonce
                    Vector.key 0 20),
             setState Vector.key Vector.nonce 1).
Proof.
  split; [lia|]. split; [reflexivity|].
  exact (NewCipher_first_block 513 0 1 Vector.nonce Vector.key 20
           eq_refl eq_refl).
Defined.

(** X13.  [NewCipher] and [XORKeyStream] accept the same numbers of
    rounds, the positive even ones: for these [NewCipher] returns a handle
    and [XORKeyStream], given room in [dst], does not panic; for every
    other number both panic before anything is written, each with its own
    message. *)
Theorem NewCipher_rounds_as_XORKeyStream
  (cpuid supportAVX2 : Z) (dst src nonce key : list Z) (counter rounds : Z) :
  (length src <= length dst)%nat ->
  (0 < rounds /\ rounds mod 2 = 0 ->
   (exists c, NewCipher nonce key rounds = Ok c)
   /\ snd (XORKeyStream cpuid supportAVX2 dst src nonce key counter rounds)
      = None)
  /\ (~ (0 < rounds /\ rounds mod 2 = 0) ->
      NewCipher nonce key rounds
      = Panic "chacha20/chacha: rounds must be a multiply of 2"
      /\ XORKeyStream cpuid supportAVX2 dst src nonce key counter rounds
         = (dst, Some "chacha20/chacha: rounds must be a multiple of 2"%string)).
Proof.
  intros Hlen. split.
  - intros [Hpos Heven]. unfold NewCipher, XORKeyStream.
    destruct (Nat.ltb_spec (length dst) (length src)) as [Hlt|_]; [lia|].
    rewrite rounds_guard by assumption. split; [eexists; reflexivity|].
    destruct (if (64 <=? length src)%nat
              then xorBlocks cpuid supportAVX2 dst src
                     (setState key nonce counter) rounds
              else (dst, setState key nonce counter)) as [d s].
    destruct (0 <? length src - mask_down (length src) 64)%nat;
      [|reflexivity].
    now destruct (Core cpuid s rounds).
  - intros Hbad.
    assert (G : (rounds <=? 0) || negb (Z.rem rounds 2 =? 0) = true).
    { destruct (Z.leb_spec rounds 0) as [|Hpos]; [reflexivity|].
      cbn [orb]. rewrite Z.rem_mod_nonneg by lia.
      destruct (Z.eqb_spec (rounds mod 2) 0) as [E|_]; [|reflexivity].
      exfalso. apply Hbad. split; [lia | exact E]. }
    unfold NewCipher, XORKeyStream. rewrite G.
    destruct (Nat.ltb_spec (length dst) (length src)) as [Hlt|_]; [lia|].
    split; reflexivity.
Qed.

Lemma NewCipher_rounds_as_XORKeyStream_witness :
  (length [1; 2; 3] <= length [0; 0; 0; 0])%nat
  /\ (0 < 8 /\ 8 mod 2 = 0)
  /\ ~ (0 < -2 /\ -2 mod 2 = 0)
  /\ (exists c, NewCipher Vector.nonce Vector.key 8 = Ok c)
  /\ NewCipher Vector.nonce Vector.key (-2)
     = Panic "chacha20/chacha: rounds must be a multiply of 2".
Proof.
  assert (H : (length [1; 2; 3] <= length [0; 0; 0; 0])%nat)
    by (cbn [length]; lia).
  assert (H8 : 0 < 8 /\ 8 mod 2 = 0) by (split; reflexivity).
  assert (Hm : ~ (0 < -2 /\ -2 mod 2 = 0)) by (intros [E _]; discriminate E).
  split; [exact H|]. split; [exact H8|]. split; [exact Hm|]. split.
  - exact (proj1 (proj1 (NewCipher_rounds_as_XORKeyStream 0 0 [0; 0; 0; 0]
                           [1; 2; 3] Vector.nonce Vector.key 0 8 H) H8)).
  - exact (proj1 (proj2 (NewCipher_rounds_as_XORKeyStream 0 0 [0; 0; 0; 0]
                           [1; 2; 3] Vector.nonce Vector.key 0 (-2) H) Hm)).
Defined.

End ChaChaMore.

(** * More of the AEAD construction *)

Module AEADMore.
Import Bytes BytesFacts ChaCha ChaChaFacts Keystream AEAD Construction.
Import AEADFacts.

Local Opaque block_of.

(** ** Lemmas *)

Lemma app_eq_length {A} (a a' b b' : list A) :
  length a = length a' -> a ++ b = a' ++ b' -> a = a' /\ b = b'.
Proof.
  revert a'; induction a as [|x a IH]; intros [|x' a'] L E;
    cbn [length] in L; try discriminate.
  - now split.
  - cbn [app] in E. injection E as -> E.
    destruct (IH a' ltac:(lia) E) as [-> ->]. now split.
Qed.

Lemma le_bytes_inj (n : nat) (x y : Z) :
  0 <= x < 256 ^ Z.of_nat n -> 0 <= y < 256 ^ Z.of_nat n ->
  le_bytes n x = le_bytes n y -> x = y.
Proof.
  intros Hx Hy E. apply (f_equal le_value) in E.
  rewrite !le_value_le_bytes in E.
  now rewrite !Z.mod_small in E by assumption.
Qed.

Lemma length_pad16 (x : list Z) :
  length (pad16 x) = ((16 - length x mod 16) mod 16)%nat.
Proof. unfold pad16. apply length_make. Qed.

Lemma pad16_length_eq (x y : list Z) :
  length x = length y -> pad16 x = pad16 y.
Proof. unfold pad16; now intros ->. Qed.

Section Opened.

Variables cpuid supportAVX2 : Z.
Variable poly1305 : list Z -> list Z -> tag16.

(** What a successful [Open] tells about its arguments and its result. *)
Lemma Open_success_inv (c : aead) (d : slice) (nonce sealed ad r : list Z) :
  handle_ok c = true -> all_bytes sealed = true ->
  Open cpuid supportAVX2 poly1305 c d nonce sealed ad = Ok (r, None) ->
  let n := (length sealed - Z.to_nat (tagsize c))%nat in
  length nonce = 12%nat
  /\ tagsize c <= Z.of_nat (length sealed)
  /\ firstn (Z.to_nat (tagsize c))
       (tag_of poly1305 (key c) nonce ad (firstn n sealed))
     = skipn n sealed
  /\ r = elems d ++ encrypt (key c) nonce (firstn n sealed).
Proof.
  intros Hc Hs H n. apply all_bytes_Forall in Hs.
  destruct (Nat.eq_dec (length nonce) 12) as [Hn|Hn].
  2:{ unfold Open, NonceSize in H.
      destruct (Nat.eqb_spec (length nonce) 12) as [E|_]; [contradiction|].
      discriminate H. }
  destruct (Z.lt_ge_cases (Z.of_nat (length sealed)) (tagsize c))
    as [Hshort|Hlen].
  { unfold Open in H. rewrite Hn in H. cbn [Nat.eqb NonceSize negb] in H.
    destruct (Z.ltb_spec (Z.of_nat (length sealed)) (tagsize c));
      [discriminate H | lia]. }
  destruct (list_eq_dec Z.eq_dec
              (firstn (Z.to_nat (tagsize c))
                 (tag_of poly1305 (key c) nonce ad (firstn n sealed)))
              (skipn n sealed)) as [E|E].
  - rewrite (Open_accepts cpuid supportAVX2 poly1305 c d nonce sealed ad)
      in H; auto; [| now apply Forall_firstn].
    injection H as <-. auto.
  - rewrite (Open_rejects cpuid supportAVX2 poly1305 c d nonce sealed ad)
      in H; auto.
    discriminate H.
Qed.

End Opened.

(** ** Theorems *)

(** X5.  [sliceForAppend] returns a [head] that is the contents of [in]
    followed by [tail], with [tail] of [n] bytes; when the capacity of
    [in] suffices, [tail] is the first [n] bytes of its spare capacity
    (nothing is allocated), otherwise [tail] is [n] zero bytes of a new
    array. *)
Theorem sliceForAppend_head_tail (in_ : slice) (n : nat) :
  fst (sliceForAppend in_ n) = elems in_ ++ snd (sliceForAppend in_ n)
  /\ length (snd (sliceForAppend in_ n)) = n
  /\ ((len in_ + n <= cap in_)%nat ->
      snd (sliceForAppend in_ n) = firstn n (spare in_))
  /\ ((cap in_ < len in_ + n)%nat ->
      snd (sliceForAppend in_ n) = make n).
Proof.
  unfold sliceForAppend, len, cap. cbv zeta. cbn [fst snd].
  destruct (Nat.leb_spec (length (elems in_) + n)
              (length (elems in_) + length (spare in_))) as [H|H].
  - assert (Eh : firstn (length (elems in_) + n) (elems in_ ++ spare in_)
                 = elems in_ ++ firstn n (spare in_)).
    { rewrite firstn_app, firstn_all2 by lia.
      now replace (length (elems in_) + n - length (elems in_))%nat
        with n by lia. }
    rewrite Eh, skipn_exact by reflexivity.
    split; [reflexivity|]. split; [rewrite length_firstn; lia|].
    split; [reflexivity | lia].
  - assert (C : copy (make (length (elems in_) + n)) (elems in_)
                = elems in_ ++ make n).
    { unfold copy. rewrite length_make.
      replace (Nat.min (length (elems in_) + n) (length (elems in_)))
        with (length (elems in_)) by lia.
      rewrite firstn_all. f_equal. unfold make.
      now rewrite repeat_app, skipn_exact by apply repeat_length. }
    rewrite C, skipn_exact by reflexivity.
    split; [reflexivity|]. split; [apply length_make|].
    split; [lia | reflexivity].
Qed.

Lemma sliceForAppend_head_tail_witness :
  ((len Vector.dst + 4 <= cap Vector.dst)%nat
   /\ snd (sliceForAppend Vector.dst 4) = firstn 4 (spare Vector.dst))
  /\ ((cap Vector.dst < len Vector.dst + 6)%nat
      /\ snd (sliceForAppend Vector.dst 6) = make 6).
Proof.
  assert (H1 : (len Vector.dst + 4 <= cap Vector.dst)%nat)
    by (vm_compute; lia).
  assert (H2 : (cap Vector.dst < len Vector.dst + 6)%nat)
    by (vm_compute; lia).
  split; split; [exact H1 | | exact H2 | ].
  - exact (proj1 (proj2 (proj2 (sliceForAppend_head_tail Vector.dst 4))) H1).
  - exact (proj2 (proj2 (proj2 (sliceForAppend_head_tail Vector.dst 6))) H2).
Defined.

(** X6.  The byte string that [authenticate] gives to the MAC determines
    the associated data and the ciphertext: for lengths below [2^64], two
    different pairs of associated data and ciphertext are never
    authenticated as the same string. *)
Theorem authenticated_string_unambiguous (ad ct ad' ct' : list Z) :
  Z.of_nat (length ad) < 2 ^ 64 -> Z.of_nat (length ct) < 2 ^ 64 ->
  Z.of_nat (length ad') < 2 ^ 64 -> Z.of_nat (length ct') < 2 ^ 64 ->
  (forall poly1305 k,
     authenticate poly1305 ct ad k
     = proj1_sig (poly1305 k (mac_data ad ct)))
  /\ (mac_data ad ct = mac_data ad' ct' -> ad = ad' /\ ct = ct').
Proof.
  intros Ba Bc Ba' Bc'. split; [intros; apply authenticate_mac_data|].
  unfold mac_data. intros E.
  rewrite !(app_assoc ad), !(app_assoc (ad ++ _)),
    !(app_assoc ((ad ++ _) ++ _)) in E.
  rewrite !(app_assoc ad'), !(app_assoc (ad' ++ _)),
    !(app_assoc ((ad' ++ _) ++ _)) in E.
  assert (LE : length (((ad ++ pad16 ad) ++ ct) ++ pad16 ct)
               = length (((ad' ++ pad16 ad') ++ ct') ++ pad16 ct')).
  { apply (f_equal (@length Z)) in E.
    rewrite (length_app (((ad ++ _) ++ _) ++ _)) in E.
    rewrite (length_app (((ad' ++ _) ++ _) ++ _)) in E.
    rewrite !(length_app (le_bytes 8 _)), !length_le_bytes in E. lia. }
  destruct (app_eq_length _ _ _ _ LE E) as [EP ET].
  destruct (app_eq_length _ _ _ _
              ltac:(rewrite !length_le_bytes; reflexivity) ET) as [Ea Ec].
  change (2 ^ 64) with (256 ^ Z.of_nat 8) in *.
  apply le_bytes_inj in Ea; [|lia|lia]. apply le_bytes_inj in Ec; [|lia|lia].
  apply Nat2Z.inj in Ea. apply Nat2Z.inj in Ec.
  rewrite <- !app_assoc in EP.
  destruct (app_eq_length _ _ _ _ Ea EP) as [-> EP1]. split; [reflexivity|].
  destruct (app_eq_length _ _ _ _ eq_refl EP1) as [_ EP2].
  now destruct (app_eq_length _ _ _ _ Ec EP2) as [-> _].
Qed.

Lemma authenticated_string_unambiguous_witness :
  Z.of_nat (length [1; 2]) < 2 ^ 64 /\ Z.of_nat (length [3]) < 2 ^ 64
  /\ Z.of_nat (length [1]) < 2 ^ 64 /\ Z.of_nat (length [2; 3]) < 2 ^ 64
  /\ (mac_data [1; 2] [3] = mac_data [1] [2; 3] ->
      [1; 2] = [1] /\ [3] = [2; 3]).
Proof.
  assert (B : forall l : list Z, (length l <= 2)%nat ->
                Z.of_nat (length l) < 2 ^ 64).
  { intros l Hl. apply Z.le_lt_trans with 2; [lia | reflexivity]. }
  assert (H1 := B [1; 2] ltac:(cbn; lia)).
  assert (H2 := B [3] ltac:(cbn; lia)).
  assert (H3 := B [1] ltac:(cbn; lia)).
  assert (H4 := B [2; 3] ltac:(cbn; lia)).
  split; [exact H1|]. split; [exact H2|]. split; [exact H3|].
  split; [exact H4|].
  exact (proj2 (authenticated_string_unambiguous [1; 2] [3] [1] [2; 3]
                  H1 H2 H3 H4)).
Defined.

Section Handle.

Variables cpuid supportAVX2 cpuid' supportAVX2' : Z.
Variable poly1305 : list Z -> list Z -> tag16.

(** X7.  Whatever [Open] accepts is what [Seal] produces: if [Open]
    returns the plaintext [pt] for the message [sealed], then [Seal] of
    [pt] under the same handle, nonce and associated data appends exactly
    [sealed] to its destination, whichever variant of the stream cipher
    the machine selects. *)
Theorem Open_result_reseals
  (c : aead) (d d' : slice) (nonce sealed ad pt : list Z) :
  handle_ok c = true -> all_bytes sealed = true ->
  Open cpuid supportAVX2 poly1305 c d nonce sealed ad
    = Ok (elems d ++ pt, None) ->
  Seal cpuid' supportAVX2' poly1305 c d' nonce pt ad
    = Ok (elems d' ++ sealed).
Proof.
  intros Hc Hs H.
  destruct (Open_success_inv cpuid supportAVX2 poly1305 c d nonce sealed ad
              _ Hc Hs H) as (Hn & _ & Htag & Hr).
  apply app_inv_head in Hr. apply all_bytes_Forall in Hs.
  set (n := (length sealed - Z.to_nat (tagsize c))%nat) in *.
  assert (Hb : Forall byte_range pt).
  { rewrite Hr. apply encrypt_range. now apply Forall_firstn. }
  rewrite (Seal_sealed cpuid' supportAVX2' poly1305 c d' nonce pt ad Hn Hc Hb).
  rewrite Hr, encrypt_involutive, Htag. now rewrite firstn_skipn.
Qed.

(** X8.  A handle with a tag of [ts] bytes seals to a prefix of what the
    handle with the full tag seals to: the same ciphertext, followed by
    the first [ts] bytes of the same tag. *)
Theorem Seal_truncated_tag
  (k : list Z) (ts : Z) (c : aead) (d : slice) (nonce pt ad : list Z) :
  NewChaCha20Poly1305WithTagSize k ts = (Some c, None) ->
  length nonce = 12%nat -> all_bytes pt = true ->
  exists full,
    Seal cpuid supportAVX2 poly1305 (NewChaCha20Poly1305 k) d nonce pt ad
      = Ok full
    /\ Seal cpuid supportAVX2 poly1305 c d nonce pt ad
       = Ok (firstn (len d + length pt + Z.to_nat ts) full).
Proof.
  intros Hk Hn Hp. apply all_bytes_Forall in Hp.
  assert (Hts : 1 <= ts <= 16 /\ c = {| key := k; tagsize := ts |}).
  { unfold NewChaCha20Poly1305WithTagSize, TagSize in Hk.
    destruct (Z.ltb_spec ts 1); [discriminate Hk|].
    destruct (Z.ltb_spec 16 ts); [discriminate Hk|].
    cbn [orb] in Hk. injection Hk as <-. split; [lia | reflexivity]. }
  destruct Hts as [Hts ->].
  assert (Hc : handle_ok {| key := k; tagsize := ts |} = true)
    by now apply NewChaCha20Poly1305WithTagSize_ok.
  eexists. split.
  - apply Seal_sealed;
      [exact Hn | apply NewChaCha20Poly1305_ok | exact Hp].
  - rewrite (Seal_sealed cpuid supportAVX2 poly1305 _ d nonce pt ad Hn Hc Hp).
    cbn [key tagsize NewChaCha20Poly1305]. f_equal.
    set (ct := encrypt k nonce pt).
    set (tag := tag_of poly1305 k nonce ad ct).
    assert (Lct : length ct = length pt) by apply length_encrypt.
    unfold len. rewrite <- Nat.add_assoc.
    rewrite firstn_app_2. f_equal. rewrite <- Lct, firstn_app_2.
    f_equal. rewrite firstn_firstn. f_equal. unfold TagSize. lia.
Qed.

(** X9.  [Open] never panics.  It returns the error for the nonce size
    with a nil plaintext, or the authentication error with a nil
    plaintext, or no error and [dst] followed by as many bytes as the
    message has before its tag. *)
Theorem Open_outcomes (c : aead) (d : slice) (nonce sealed ad : list Z) :
  handle_ok c = true -> all_bytes sealed = true ->
  (length nonce <> 12%nat
   /\ Open cpuid supportAVX2 poly1305 c d nonce sealed ad
      = Ok ([], Some errInvalidNonceSize))
  \/ (length nonce = 12%nat
      /\ Open cpuid supportAVX2 poly1305 c d nonce sealed ad
         = Ok ([], Some errAuthFailed))
  \/ (length nonce = 12%nat
      /\ exists pt,
           Open cpuid supportAVX2 poly1305 c d nonce sealed ad
             = Ok (elems d ++ pt, None)
           /\ Z.of_nat (length pt) + tagsize c = Z.of_nat (length sealed)).
Proof.
  intros Hc Hs. apply all_bytes_Forall in Hs.
  pose proof (handle_ok_range c Hc) as Hts.
  destruct (Nat.eq_dec (length nonce) 12) as [Hn|Hn].
  2:{ left. split; [exact Hn|]. unfold Open, NonceSize.
      now destruct (Nat.eqb_spec (length nonce) 12) as [E|_]. }
  right.
  destruct (Z.lt_ge_cases (Z.of_nat (length sealed)) (tagsize c))
    as [Hshort|Hlen].
  { left. split; [exact Hn|]. unfold Open. rewrite Hn.
    cbn [Nat.eqb NonceSize negb].
    destruct (Z.ltb_spec (Z.of_nat (length sealed)) (tagsize c));
      [reflexivity | lia]. }
  set (n := (length sealed - Z.to_nat (tagsize c))%nat).
  destruct (list_eq_dec Z.eq_dec
              (firstn (Z.to_nat (tagsize c))
                 (tag_of poly1305 (key c) nonce ad (firstn n sealed)))
              (skipn n sealed)) as [E|E].
  - right. split; [exact Hn|].
    exists (encrypt (key c) nonce (firstn n sealed)). split.
    + apply Open_accepts; auto. now apply Forall_firstn.
    + rewrite length_encrypt, length_firstn. unfold n. lia.
  - left. split; [exact Hn|]. now apply Open_rejects.
Qed.

(** X10.  The two numbers that the handle reports mean what
    [cipher.AEAD] says: with a nonce of [NonceSize()] bytes [Seal] returns
    and its result is [Overhead()] bytes longer than [dst] and the
    plaintext together, and [Open] refuses, as not authentic, every
    message shorter than [Overhead()]. *)
Theorem Overhead_NonceSize_contract
  (c : aead) (d : slice) (nonce msg ad : list Z) :
  handle_ok c = true -> length nonce = Methods.NonceSize c ->
  (all_bytes msg = true ->
   exists out,
     Seal cpuid supportAVX2 poly1305 c d nonce msg ad = Ok out
     /\ Z.of_nat (length out)
        = Z.of_nat (len d) + Z.of_nat (length msg) + Methods.Overhead c)
  /\ (Z.of_nat (length msg) < Methods.Overhead c ->
      Open cpuid supportAVX2 poly1305 c d nonce msg ad
      = Ok ([], Some errAuthFailed)).
Proof.
  unfold Methods.NonceSize, Methods.Overhead, NonceSize.
  intros Hc Hn. pose proof (handle_ok_range c Hc) as Hts. split.
  - intros Hp. apply all_bytes_Forall in Hp. eexists. split.
    + now apply Seal_sealed.
    + rewrite !length_app, length_encrypt, length_firstn. unfold tag_of, len.
      rewrite (proj2_sig (poly1305 _ _)). lia.
  - intros Hshort. unfold Open. rewrite Hn. cbn [Nat.eqb NonceSize negb].
    destruct (Z.ltb_spec (Z.of_nat (length msg)) (tagsize c));
      [reflexivity | lia].
Qed.

End Handle.

Lemma Open_result_reseals_witness :
  handle_ok (NewChaCha20Poly1305 Vector.key) = true
  /\ all_bytes Vector.sealed = true
  /\ Open 0 0 Vector.poly1305 (NewChaCha20Poly1305 Vector.key) nil_slice
          Vector.nonce Vector.sealed Vector.ad
     = Ok (elems nil_slice ++ Vector.plaintext, None)
  /\ Seal 513 1 Vector.poly1305 (NewChaCha20Poly1305 Vector.key) Vector.dst
          Vector.nonce Vector.plaintext Vector.ad
     = Ok (elems Vector.dst ++ Vector.sealed).
Proof.
  assert (H : Open 0 0 Vector.poly1305 (NewChaCha20Poly1305 Vector.key)
                nil_slice Vector.nonce Vector.sealed Vector.ad
              = Ok (elems nil_slice ++ Vector.plaintext, None))
    by (vm_compute; reflexivity).
  split; [reflexivity|]. split; [reflexivity|]. split; [exact H|].
  exact (Open_result_reseals 0 0 513 1 Vector.poly1305
           (NewChaCha20Poly1305 Vector.key) nil_slice Vector.dst
           Vector.nonce Vector.sealed Vector.ad Vector.plaintext
           eq_refl eq_refl H).
Defined.

Lemma Seal_truncated_tag_witness :
  NewChaCha20Poly1305WithTagSize Vector.key 4
    = (Some Vector.short_tag, None)
  /\ length Vector.nonce = 12%nat
  /\ all_bytes Vector.plaintext = true
  /\ exists full,
       Seal 0 0 Vector.poly1305 (NewChaCha20Poly1305 Vector.key) Vector.dst
            Vector.nonce Vector.plaintext Vector.ad = Ok full
       /\ Seal 0 0 Vector.poly1305 Vector.short_tag Vector.dst
               Vector.nonce Vector.plaintext Vector.ad
          = Ok (firstn (len Vector.dst + length Vector.plaintext
                        + Z.to_nat 4) full).
Proof.
  split; [reflexivity|]. split; [reflexivity|]. split; [reflexivity|].
  exact (Seal_truncated_tag 0 0 Vector.poly1305 Vector.key 4
           Vector.short_tag Vector.dst Vector.nonce Vector.plaintext
           Vector.ad eq_refl eq_refl eq_refl).
Defined.

Lemma Open_outcomes_witness :
  handle_ok Vector.short_tag = true
  /\ all_bytes [1; 2; 3; 4; 5] = true
  /\ ((length [0; 1] <> 12%nat
       /\ Open 0 0 Vector.poly1305 Vector.short_tag Vector.dst [0; 1]
               [1; 2; 3; 4; 5] Vector.ad
          = Ok ([], Some errInvalidNonceSize))
      \/ (length [0; 1] = 12%nat
          /\ Open 0 0 Vector.poly1305 Vector.short_tag Vector.dst [0; 1]
                  [1; 2; 3; 4; 5] Vector.ad
             = Ok ([], Some errAuthFailed))
      \/ (length [0; 1] = 12%nat
          /\ exists pt,
               Open 0 0 Vector.poly1305 Vector.short_tag Vector.dst [0; 1]
                    [1; 2; 3; 4; 5] Vector.ad
                 = Ok (elems Vector.dst ++ pt, None)
               /\ Z.of_nat (length pt) + tagsize Vector.short_tag
                  = Z.of_nat (length [1; 2; 3; 4; 5]))).
Proof.
  split; [reflexivity|]. split; [reflexivity|].
  exact (Open_outcomes 0 0 Vector.poly1305 Vector.short_tag Vector.dst
           [0; 1] [1; 2; 3; 4; 5] Vector.ad eq_refl eq_refl).
Defined.

Lemma Overhead_NonceSize_contract_witness :
  handle_ok Vector.short_tag = true
  /\ length Vector.nonce = Methods.NonceSize Vector.short_tag
  /\ all_bytes Vector.plaintext = true
  /\ (exists out,
        Seal 0 0 Vector.poly1305 Vector.short_tag Vector.dst Vector.nonce
             Vector.plaintext Vector.ad = Ok out
        /\ Z.of_nat (length out)
           = Z.of_nat (len Vector.dst)
             + Z.of_nat (length Vector.plaintext)
             + Methods.Overhead Vector.short_tag).
Proof.
  split; [reflexivity|]. split; [reflexivity|]. split; [reflexivity|].
  exact (proj1 (Overhead_NonceSize_contract 0 0 Vector.poly1305
                  Vector.short_tag Vector.dst Vector.nonce
                  Vector.plaintext Vector.ad eq_refl eq_refl) eq_refl).
Defined.

End AEADMore.
